(** * YCrawler: a shallow embedding of [ycrawler.py]

    The crawler polls the front page of news.ycombinator.com, archives
    the top stories and the links found in their comments.  The
    development follows the source file top-down:

    - Python strings are sequences of Unicode code points ([list N]);
    - [make_safe_filename] is a pure function;
    - the methods of [YCrawler] are written in a small state-and-exception
      monad over a [State] that holds the network (an oracle), the
      semaphore counter, the files written, the log and the dictionary
      [parsed_news];
    - the admission gate ([asyncio.Semaphore]) is also studied on its own as
      a transition system over concurrently running [read_url] calls. *)

From Stdlib Require Import ZArith NArith List Ascii String DecimalString Lia.
From stdpp Require Import base list gmap.
Import ListNotations.

Open Scope N_scope.

(** ** Strings *)

(** A Python [str]: a sequence of code points. *)
Abbreviation str := (list N).

(** Literals are written as Rocq strings and read as code points. *)
Definition u (s : string) : str := map N_of_ascii (list_ascii_of_string s).
Arguments u s : simpl never.

Definition str_of_nat (n : nat) : str :=
  u (NilEmpty.string_of_uint (Nat.to_uint n)).

Definition str_eqb (a b : str) : bool := bool_decide (a = b).

(** [str.isspace] on one character: CPython's [_Py_ascii_whitespace] below
    128 and [_PyUnicode_IsWhitespace] above. *)
Definition isspace (c : N) : bool :=
  ((9 <=? c) && (c <=? 13)) || ((28 <=? c) && (c <=? 32))
  || (c =? 133) || (c =? 160) || (c =? 5760)
  || ((8192 <=? c) && (c <=? 8202))
  || (c =? 8232) || (c =? 8233) || (c =? 8239) || (c =? 8287) || (c =? 12288).

Definition ascii_isalnum (c : N) : bool :=
  ((48 <=? c) && (c <=? 57)) || ((65 <=? c) && (c <=? 90))
  || ((97 <=? c) && (c <=? 122)).

Definition underscore : N := 95.
Definition space : N := 32.

(** [s.strip(chars)]: drop the characters of [chars] at both ends. *)
Fixpoint lstrip (p : N -> bool) (s : str) : str :=
  match s with
  | [] => []
  | c :: s' => if p c then lstrip p s' else s
  end.

Definition rstrip (p : N -> bool) (s : str) : str := rev (lstrip p (rev s)).

Definition strip (p : N -> bool) (s : str) : str := rstrip p (lstrip p s).

Definition in_chars (chars : str) (c : N) : bool :=
  existsb (N.eqb c) chars.

(** [s.split(sep)[0]]: the text before the first separator. *)
Fixpoint before_first (sep : N) (s : str) : str :=
  match s with
  | [] => []
  | c :: s' => if c =? sep then [] else c :: before_first sep s'
  end.

(** [s.split(sep)] for a one-character separator. *)
Fixpoint split_on (sep : N) (s : str) : list str :=
  match s with
  | [] => [[]]
  | c :: s' =>
      match split_on sep s' with
      | [] => [[c]]
      | w :: ws => if c =? sep then [] :: w :: ws else (c :: w) :: ws
      end
  end.

(** [PurePosixPath(text).name]: the last component of the text, where empty
    components and [.] components do not count; empty when there is none. *)
Definition path_name (text : str) : str :=
  List.last (filter (fun w => negb (str_eqb w []) && negb (str_eqb w (u ".")))
                    (split_on 47 text)) [].

Section Sanitize.

(** [str.isalnum] above the ASCII range is given by the Unicode character
    database, which is not part of the program. *)
Variable unicode_isalnum : N -> bool.

Definition isalnum (c : N) : bool :=
  if c <? 128 then ascii_isalnum c else unicode_isalnum c.

Definition safe_char (c : N) : N :=
  if isalnum c || isspace c then c else underscore.

(** [make_safe_filename], lines 21-24. *)
Definition make_safe_filename (text : str) : str :=
  let filename := strip (in_chars (u "_ ")) (map safe_char text) in
  filename ++ u ".html".

End Sanitize.

(** ** Data of the crawler *)

Abbreviation bytes := (list Byte.byte).

#[global] Instance byte_eq_dec : EqDecision Byte.byte := Byte.byte_eq_dec.

Definition b (s : string) : bytes := list_byte_of_string s.

(** A [pathlib.Path] built with [/]: the sequence of the joined operands.
    Where the file lands when an operand is absolute or holds [..] is not
    modelled. *)
Abbreviation Path := (list str).

Definition parent (p : Path) : Path := removelast p.

(** The exceptions that can travel through the crawler's frames.
    [TimeoutError] stands for the class and its subclasses
    ([asyncio.TimeoutError], aiohttp's timeout errors); [ClientError] for
    aiohttp's connection and protocol errors. *)
Inductive exn : Type :=
  | TimeoutError
  | ClientError
  | KeyboardInterrupt
  | CancelledError
  | AttributeError
  | IndexError
  | KeyError
  | TypeError.

#[global] Instance exn_eq_dec : EqDecision exn.
Proof. solve_decision. Defined.

(** What [session.get(url)] followed by [r.read()] comes to. *)
Inductive outcome : Type :=
  | Response (body : bytes) (content_type : str) (status : Z)
  | Failure (e : exn).

(** The triple [response, content_type, status] of [read_url]; every
    component starts as [None]. *)
Abbreviation fetched := (option bytes * option str * option Z)%type.

Record Session := { timeout_total : Z; trust_env : bool }.

(** [aiohttp.ClientSession(timeout=ClientTimeout(total=5), trust_env=True)],
    line 130. *)
Definition ClientSession : Session :=
  {| timeout_total := 5; trust_env := true |}.

(** *** What the program reads off a parsed document

    [BeautifulSoup] is an external collaborator; the records below hold
    exactly the queries the program makes, each with the [None] or the
    missing attribute it may meet. *)

(** An [<a>] tag: [a.text] and [a['href']]. *)
Record Anchor := { a_text : str; a_href : option str }.

(** A row of the front page: [item['id']] and, for each element of
    [item.find_all(attrs={'class': 'titleline'})], its [.a]. *)
Record Item := { item_id : option str; titlelines : list (option Anchor) }.

(** A row of the comment tree: [comment['id']] and the anchors of
    [comment.find(attrs={'class': 'commtext c00'})]. *)
Record Comment := { comment_id : option str; commtext : option (list Anchor) }.

(** [bs.table]: its comment tree with the rows
    [st.find_all('tr', attrs={'class': 'athing comtr'})], and
    [bs.table.find_all(attrs={'class': 'athing'})]. *)
Record Table := { comment_tree : option (list Comment); athing : list Item }.

Record Soup := { table : option Table }.

Inductive level : Type := DEBUG | INFO | ERROR.

Inductive message : Type :=
  | MsgReadURL (url : str) (status : option Z) (received : nat)
  | MsgTimedOut (url : str)
  | MsgCommentLinkError (status : option Z) (url : str)
  | MsgParsingItem (url : str)
  | MsgNoResponse (url : str) (status : option Z)
  | MsgNews (id name href : str)
  | MsgMainPageError (status : option Z)
  | MsgStarting
  | MsgStartCrawling
  | MsgNoNews
  | MsgAlreadyParsed (id : str)
  | MsgEndCycle
  | MsgWaiting
  | MsgRepeat.

(** [YCrawler.__init__], lines 37-43; the semaphore is part of the state. *)
Record YCrawler := {
  site : str;
  sleep : Z;
  top_news_count : Z;
  root : str;
  run_once : bool
}.

Definition SITE : str := u "https://news.ycombinator.com".


Inductive Result (A : Type) : Type :=
  | Ok (a : A)
  | Raise (e : exn)
  | Blocked.
Arguments Ok {A} a.
Arguments Raise {A} e.
Arguments Blocked {A}.

(** Truth value of a payload ([not response]): [None] and [b''] are false. *)
Definition truthy (response : option bytes) : bool :=
  match response with
  | Some (_ :: _) => true
  | _ => false
  end.

Definition status_is (status : option Z) (code : Z) : bool :=
  match status with
  | Some s => (s =? code)%Z
  | None => false
  end.

Definition is_html (content_type : option str) : bool :=
  match content_type with
  | Some t => str_eqb t (u "text/html")
  | None => false
  end.

(** [news[:k]]: a negative bound counts from the end. *)
Definition slice_to {A} (l : list A) (k : Z) : list A :=
  if (k <? 0)%Z then firstn (Z.to_nat (Z.of_nat (length l) + k)) l
  else firstn (Z.to_nat k) l.

(** The file name of an archived comment link, lines 83-86. *)
Definition link_fname (comm_id : str) (link_num : nat)
    (content_type : option str) (comm_url : str) : str :=
  if is_html content_type
  then comm_id ++ u "_" ++ str_of_nat link_num ++ u ".html"
  else comm_id ++ u "_" ++ str_of_nat link_num ++ u "_"
         ++ before_first 63 (path_name comm_url).

(** The collaborators of the crawler.  The network is an oracle on an
    abstract world: a GET consumes the world and yields what the server, the
    timer or the transport did.  The parser and the Unicode table are pure. *)
Class Env (World : Type) := {
  http_get : Session -> str -> option str -> World -> outcome * World;
  BeautifulSoup : bytes -> Soup;
  unicode_isalnum : N -> bool
}.

Section Crawler.

Context `{env : Env World}.

Record State := {
  world : World;
  sem : Z;                              (* [self.semaphore._value] *)
  requests : list (str * outcome);      (* GETs issued, oldest first *)
  dirs : list Path;                     (* directories that exist *)
  written : list (Path * bytes);        (* files written, oldest first *)
  log : list (level * message);         (* logging calls, oldest first *)
  examined : list str;                  (* ids looked up at line 137 *)
  dispatched : list str;                (* ids given to [parse_item] *)
  parsed_news : gmap str (str * str)    (* the dictionary of [run] *)
}.

Definition M (A : Type) : Type := State -> Result A * State.

#[global] Instance M_ret : MRet M := fun A a st => (Ok a, st).

#[global] Instance M_bind : MBind M := fun A B f m st =>
  match m st with
  | (Ok a, st') => f a st'
  | (Raise e, st') => (Raise e, st')
  | (Blocked, st') => (Blocked, st')
  end.

Definition raise {A} (e : exn) : M A := fun st => (Raise e, st).

Definition set_world (w : World) (st : State) : State :=
  {| world := w; sem := sem st; requests := requests st; dirs := dirs st;
     written := written st; log := log st; examined := examined st;
     dispatched := dispatched st;
     parsed_news := parsed_news st |}.

Definition set_sem (v : Z) (st : State) : State :=
  {| world := world st; sem := v; requests := requests st; dirs := dirs st;
     written := written st; log := log st; examined := examined st;
     dispatched := dispatched st;
     parsed_news := parsed_news st |}.

Definition add_request (r : str * outcome) (st : State) : State :=
  {| world := world st; sem := sem st; requests := requests st ++ [r];
     dirs := dirs st; written := written st; log := log st;
     examined := examined st; dispatched := dispatched st;
     parsed_news := parsed_news st |}.

Definition add_dir (d : Path) (st : State) : State :=
  {| world := world st; sem := sem st; requests := requests st;
     dirs := d :: dirs st; written := written st; log := log st;
     examined := examined st; dispatched := dispatched st;
     parsed_news := parsed_news st |}.

Definition add_written (f : Path * bytes) (st : State) : State :=
  {| world := world st; sem := sem st; requests := requests st;
     dirs := dirs st; written := written st ++ [f]; log := log st;
     examined := examined st; dispatched := dispatched st;
     parsed_news := parsed_news st |}.

Definition add_log (r : level * message) (st : State) : State :=
  {| world := world st; sem := sem st; requests := requests st;
     dirs := dirs st; written := written st; log := log st ++ [r];
     examined := examined st; dispatched := dispatched st;
     parsed_news := parsed_news st |}.

Definition add_examined (id : str) (st : State) : State :=
  {| world := world st; sem := sem st; requests := requests st;
     dirs := dirs st; written := written st; log := log st;
     examined := examined st ++ [id]; dispatched := dispatched st;
     parsed_news := parsed_news st |}.

Definition add_dispatched (id : str) (st : State) : State :=
  {| world := world st; sem := sem st; requests := requests st;
     dirs := dirs st; written := written st; log := log st;
     examined := examined st; dispatched := dispatched st ++ [id];
     parsed_news := parsed_news st |}.

Definition set_parsed_news (d : gmap str (str * str)) (st : State) : State :=
  {| world := world st; sem := sem st; requests := requests st;
     dirs := dirs st; written := written st; log := log st;
     examined := examined st; dispatched := dispatched st; parsed_news := d |}.

Definition logging (l : level) (m : message) : M unit :=
  fun st => (Ok tt, add_log (l, m) st).

(** [asyncio.Semaphore(max_tasks)] refuses a negative value. *)
Definition init_state (w : World) (max_tasks : Z) : option State :=
  if (max_tasks <? 0)%Z then None
  else Some {| world := w; sem := max_tasks; requests := []; dirs := [];
               written := []; log := []; examined := []; dispatched := [];
               parsed_news := ∅ |}.

(** [write_file], lines 27-32.  Writing [None] is a [TypeError].  The file
    system is taken to accept the directory and the file: an [OSError] of
    [makedirs] or [open] (a name too long, no permission) is outside the
    model, so what is said of a file written holds for the runs in which
    the write is accepted. *)
Definition write_file (fp : Path) (content : option bytes) : M unit :=
  fun st =>
    let st1 := if bool_decide (parent fp ∈ dirs st) then st
               else add_dir (parent fp) st in
    match content with
    | Some body => (Ok tt, add_written (fp, body) st1)
    | None => (Raise TypeError, st1)
    end.

(** [YCrawler.read_url], lines 45-58.  The calls of the program follow
    one another, so a semaphore found at zero is never released: the call
    waits for ever ([Blocked]).  Leaving [async with self.semaphore]
    releases the semaphore on every path. *)
Definition read_url (url : str) (session : Session) (proxy : option str)
    : M fetched :=
  fun st =>
    if (sem st <=? 0)%Z then (Blocked, st)
    else
      let st1 := set_sem (sem st - 1) st in
      let '(o, w) := http_get session url proxy (world st1) in
      let st2 := set_sem (sem st1 + 1)
                   (add_request (url, o) (set_world w st1)) in
      match o with
      | Response body content_type status =>
          (Ok (Some body, Some content_type, Some status),
           add_log (DEBUG, MsgReadURL url (Some status) (length body)) st2)
      | Failure TimeoutError =>
          (Ok (None, None, Some 408%Z),
           add_log (ERROR, MsgTimedOut url) st2)
      | Failure e => (Raise e, st2)
      end.

(** The hrefs of [[a['href'] for a in comm_text.find_all('a') if a]]: a tag
    is always true, and an anchor without [href] is a [KeyError]. *)
Fixpoint hrefs (anchors : list Anchor) : option (list str) :=
  match anchors with
  | [] => Some []
  | a :: rest =>
      match a_href a, hrefs rest with
      | Some h, Some hs => Some (h :: hs)
      | _, _ => None
      end
  end.

(** The loop over [comm_urls], lines 75-89; the value is [link_num] when
    the loop ends. *)
Fixpoint download_links (session : Session) (comm_index_dir : Path)
    (comm_id : str) (link_num : nat) (comm_urls : list str) : M nat :=
  match comm_urls with
  | [] => mret link_num
  | comm_url :: rest =>
      '(response, content_type, status) ← read_url comm_url session None;
      if negb (truthy response) || negb (status_is status 200) then
        logging ERROR (MsgCommentLinkError status comm_url);;
        download_links session comm_index_dir comm_id link_num rest
      else
        let fname := link_fname comm_id link_num content_type comm_url in
        write_file (comm_index_dir ++ [fname]) response;;
        download_links session comm_index_dir comm_id (S link_num) rest
  end.

(** The loop over [comment_items], lines 71-89. *)
Fixpoint for_comments (session : Session) (comm_index_dir : Path)
    (comment_items : list Comment) : M unit :=
  match comment_items with
  | [] => mret tt
  | comment :: rest =>
      match comment_id comment with
      | None => raise KeyError
      | Some comm_id =>
          match (match commtext comment with
                 | Some anchors => hrefs anchors
                 | None => Some []
                 end) with
          | None => raise KeyError
          | Some comm_urls =>
              download_links session comm_index_dir comm_id 0 comm_urls;;
              for_comments session comm_index_dir rest
          end
      end
  end.

(** [BeautifulSoup(response, features="html.parser")]; [None] has no
    length. *)
Definition soup_of (response : option bytes) : M Soup :=
  match response with
  | Some body => mret (BeautifulSoup body)
  | None => raise TypeError
  end.

(** [YCrawler.parse_comments], lines 61-89.  [bs.table] is used without a
    test; the comment tree [st] is tested. *)
Definition parse_comments (c : YCrawler) (response : option bytes)
    (item : Item) (session : Session) : M unit :=
  bs ← soup_of response;
  match table bs with
  | None => raise AttributeError
  | Some t =>
      let comment_items :=
        match comment_tree t with Some rows => rows | None => [] end in
      match comment_items with
      | [] => mret tt
      | _ :: _ =>
          match item_id item with
          | None => raise KeyError
          | Some id =>
              for_comments session [root c; id; u "comments"] comment_items
          end
      end
  end.

(** [YCrawler.parse_item], lines 92-112. *)
Definition parse_item (c : YCrawler) (item : Item) (session : Session)
    : M (option (str * str)) :=
  match item_id item with
  | None => raise KeyError
  | Some id =>
      let url := site c ++ u "/item?id=" ++ id in
      logging INFO (MsgParsingItem url);;
      '(response, _, status) ← read_url url session None;
      if negb (truthy response) then
        logging INFO (MsgNoResponse url status);;
        mret None
      else
        match titlelines item with
        | [] => raise IndexError
        | None :: _ => raise AttributeError
        | Some a :: _ =>
            let name := strip isspace (a_text a) in
            match a_href a with
            | None => raise KeyError
            | Some href =>
                logging INFO (MsgNews id name href);;
                let filepath :=
                  [root c; id; make_safe_filename unicode_isalnum name] in
                write_file filepath response;;
                parse_comments c response item session;;
                mret (Some (name, url))
            end
        end
  end.

(** [YCrawler.parse_main_page], lines 114-121. *)
Definition parse_main_page (c : YCrawler) (session : Session)
    : M (option (list Item)) :=
  '(response, _, status) ← read_url (site c) session None;
  if negb (truthy response) || negb (status_is status 200) then
    logging ERROR (MsgMainPageError status);;
    mret None
  else
    bs ← soup_of response;
    match table bs with
    | None => raise AttributeError
    | Some t => mret (Some (athing t))
    end.

Definition get_parsed_news : M (gmap str (str * str)) :=
  fun st => (Ok (parsed_news st), st).

(** [parsed_news[id] = name_url_tpl], line 141. *)
Definition store_parsed (id : str) (tpl : str * str) : M unit :=
  fun st => (Ok tt, set_parsed_news (<[id := tpl]> (parsed_news st)) st).

(** Ghost steps: the look-up of line 137 and the call of [parse_item] at
    line 138 are recorded. *)
Definition mark_examined (id : str) : M unit :=
  fun st => (Ok tt, add_examined id st).

Definition mark_dispatched (id : str) : M unit :=
  fun st => (Ok tt, add_dispatched id st).

(** The body of the loop over the news, lines 137-143. *)
Definition news_step (c : YCrawler) (session : Session) (news_item : Item)
    : M unit :=
  match item_id news_item with
  | None => raise KeyError
  | Some id =>
      mark_examined id;;
      seen ← get_parsed_news;
      match seen !! id with
      | None =>
          mark_dispatched id;;
          name_url_tpl ← parse_item c news_item session;
          match name_url_tpl with
          | None => mret tt
          | Some tpl => store_parsed id tpl
          end
      | Some _ => logging DEBUG (MsgAlreadyParsed id)
      end
  end.

Inductive loop_exit : Type := Exhausted | Broke.

(** [for news_item in ...: try: ... except KeyboardInterrupt: break],
    lines 135-145. *)
Fixpoint for_news (c : YCrawler) (session : Session) (items : list Item)
    : M loop_exit :=
  match items with
  | [] => mret Exhausted
  | news_item :: rest => fun st =>
      match news_step c session news_item st with
      | (Ok _, st') => for_news c session rest st'
      | (Raise KeyboardInterrupt, st') => (Ok Broke, st')
      | (Raise e, st') => (Raise e, st')
      | (Blocked, st') => (Blocked, st')
      end
  end.

(** One turn of [while True] up to the end of the [async with] block,
    lines 130-146; the value tells whether line 134 left the loop. *)
Definition cycle (c : YCrawler) : M bool :=
  let session := ClientSession in
  news ← parse_main_page c session;
  match news with
  | None | Some [] =>
      logging ERROR MsgNoNews;;
      mret true
  | Some items =>
      for_news c session (slice_to items (top_news_count c));;
      logging INFO MsgEndCycle;;
      mret false
  end.

Inductive run_end : Type := Returned | Running.

(** [while True], lines 129-151, for at most [cycles] turns; the sleep
    between two turns changes nothing the program observes. *)
Fixpoint run_loop (c : YCrawler) (cycles : nat) : M run_end :=
  match cycles with
  | O => mret Running
  | S n =>
      cycle c ≫= fun stop : bool =>
        if stop then mret Returned
        else if run_once c then mret Returned
        else
          logging INFO MsgWaiting;;
          logging INFO MsgRepeat;;
          run_loop c n
  end.

(** [parsed_news = {}], line 127. *)
Definition new_parsed_news : M unit :=
  fun st => (Ok tt, set_parsed_news ∅ st).

(** [YCrawler.run], lines 123-151. *)
Definition run (c : YCrawler) (cycles : nat) : M run_end :=
  logging INFO MsgStarting;;
  new_parsed_news;;
  logging INFO MsgStartCrawling;;
  run_loop c cycles.

End Crawler.

Arguments State World : clear implicits.
Arguments M World A : clear implicits.

(** ** The admission gate as a transition system

    [read_url] is the only place that touches [self.semaphore], and every
    fetch of the program goes through [read_url]: the front page (line 116),
    a story page (line 96) and a comment link (line 78).  Here any number of
    such calls run side by side, scheduled in any order. *)
Module Gate.

Inductive call_site : Type := FrontPage | StoryPage | CommentLink.

(** Where a call of [read_url] stands: before [async with self.semaphore],
    suspended in [acquire], inside the block (the GET is in flight), or
    past the block. *)
Inductive point : Type := Arriving | Waiting | InFlight | Left.

Record call := { origin : call_site; at_point : point }.

Record gate := { value : Z; calls : list call }.

Definition is_in_flight (c : call) : bool :=
  match at_point c with InFlight => true | _ => false end.

Definition in_flight (g : gate) : nat :=
  length (filter (fun c => is_in_flight c = true) (calls g)).

Definition move (i : nat) (p : point) (g : gate) (v : Z) : gate :=
  {| value := v;
     calls := alter (fun c => {| origin := origin c; at_point := p |}) i
                    (calls g) |}.

Inductive step : gate -> gate -> Prop :=
  | step_call (g : gate) (s : call_site) :
      (* some call site calls [read_url] *)
      step g {| value := value g;
                calls := calls g ++ [{| origin := s; at_point := Arriving |}] |}
  | step_wait (g : gate) (i : nat) (c : call) :
      (* [acquire] finds the semaphore locked and suspends *)
      calls g !! i = Some c -> at_point c = Arriving ->
      step g (move i Waiting g (value g))
  | step_enter (g : gate) (i : nat) (c : call) :
      (* [acquire] returns: [_value -= 1] *)
      calls g !! i = Some c ->
      at_point c = Arriving \/ at_point c = Waiting ->
      (0 < value g)%Z ->
      step g (move i InFlight g (value g - 1))
  | step_leave (g : gate) (i : nat) (c : call) :
      (* the block ends, by a response, a timeout or an error:
         [release], [_value += 1] *)
      calls g !! i = Some c -> at_point c = InFlight ->
      step g (move i Left g (value g + 1))
  | step_cancel (g : gate) (i : nat) (c : call) :
      (* a suspended call is cancelled *)
      calls g !! i = Some c -> at_point c = Waiting ->
      step g (move i Left g (value g)).

(** [asyncio.Semaphore(max_tasks)]: a negative value is refused. *)
Definition init (max_tasks : Z) : option gate :=
  if (max_tasks <? 0)%Z then None
  else Some {| value := max_tasks; calls := [] |}.

Definition weight (c : call) : Z := if is_in_flight c then 1 else 0.

(** A gate of capacity one with a front-page fetch in flight and a
    comment-link fetch held back. *)
Definition busy : gate :=
  {| value := 0;
     calls := [ {| origin := FrontPage; at_point := InFlight |};
                {| origin := CommentLink; at_point := Waiting |} ] |}.

End Gate.

(** ** A small world to run the crawler in

    The front page lists the stories [123] and [404] (and [123] again).  The
    page of story [123] has one comment, [c1], with two links; the page of
    story [404] is an error page without any table.  The world counts the
    GETs it has served. *)
Module Demo.

Definition front : bytes := b "front".
Definition story123 : bytes := b "story 123".
Definition not_found : bytes := b "Not Found".
Definition page_b : bytes := b "<html>b</html>".

Definition item_url (id : string) : str := SITE ++ u "/item?id=" ++ u id.

Definition serve (url : str) : outcome :=
  if str_eqb url SITE then Response front (u "text/html") 200
  else if str_eqb url (item_url "123")
    then Response story123 (u "text/html") 200
  else if str_eqb url (item_url "404")
    then Response not_found (u "text/plain") 404
  else if str_eqb url (u "http://x/b")
    then Response page_b (u "text/html") 200
  else if str_eqb url (u "http://x/gone")
    then Response not_found (u "text/html") 404
  else if str_eqb url (u "http://x/slow") then Failure TimeoutError
  else Failure ClientError.

Definition item123 : Item :=
  {| item_id := Some (u "123");
     titlelines := [Some {| a_text := u " Hello World ";
                            a_href := Some (u "http://x/a") |}] |}.

Definition item404 : Item :=
  {| item_id := Some (u "404");
     titlelines := [Some {| a_text := u "Lost";
                            a_href := Some (u "http://x/lost") |}] |}.

Definition link (href : string) : Anchor :=
  {| a_text := u "link"; a_href := Some (u href) |}.

Definition comment_c1 : Comment :=
  {| comment_id := Some (u "c1");
     commtext := Some [link "http://x/gone"; link "http://x/b"] |}.

Definition parse (body : bytes) : Soup :=
  if bool_decide (body = front)
  then {| table := Some {| comment_tree := None;
                           athing := [item123; item404; item123] |} |}
  else if bool_decide (body = story123)
  then {| table := Some {| comment_tree := Some [comment_c1];
                           athing := [] |} |}
  else {| table := None |}.

#[global] Instance env : Env nat := {|
  http_get := fun _ url _ served => (serve url, S served);
  BeautifulSoup := parse;
  unicode_isalnum := fun _ => false
|}.

Definition crawler : YCrawler :=
  {| site := SITE; sleep := 60; top_news_count := 5; root := u "web";
     run_once := true |}.

Definition start : State nat :=
  {| world := O; sem := 10; requests := []; dirs := []; written := [];
     log := []; examined := []; dispatched := []; parsed_news := ∅ |}.

Definition comments_dir : Path := [u "web"; u "123"; u "comments"].

(** The state of [start] with story [123] already in the dictionary. *)
Definition seen123 : State nat :=
  set_parsed_news {[ u "123" := (u "Hello World", item_url "123") ]} start.

(** The state in which [news_step] calls [parse_item] for [id]. *)
Definition at_call (id : string) : State nat :=
  add_dispatched (u id) (add_examined (u id) start).

Definition two_links : list str := [u "http://x/gone"; u "http://x/b"].

End Demo.

(** ** Vocabulary of the statements *)

Section Vocabulary.

Context {World : Type}.

(** The semaphore counter, the dictionary and the two ghost traces are the
    same in both states. *)
Definition untouched (st st' : State World) : Prop :=
  sem st' = sem st /\ parsed_news st' = parsed_news st
  /\ dispatched st' = dispatched st /\ examined st' = examined st.

(** A computation that leaves them alone and, started with a free
    semaphore, does not wait for ever. *)
Definition keeps {A} (m : M World A) : Prop :=
  forall st, untouched st (snd (m st))
             /\ ((0 < sem st)%Z -> fst (m st) <> Blocked).

(** A GET whose answer the comment loop archives: a non-empty body with
    status 200 (line 79). *)
Definition archivable (r : str * outcome) : bool :=
  match snd r with
  | Response body _ status => truthy (Some body) && (status =? 200)%Z
  | Failure _ => false
  end.

(** What [read_url] returns for an outcome of the GET, when it returns. *)
Definition returned (o : outcome) : Result fetched :=
  match o with
  | Response body content_type status =>
      Ok (Some body, Some content_type, Some status)
  | Failure TimeoutError => Ok (None, None, Some 408%Z)
  | Failure e => Raise e
  end.

(** The state in which [read_url] ends after a GET with outcome [o] that
    left the world [w]. *)
Definition after_get (url : str) (o : outcome) (w : World)
    (st : State World) : State World :=
  let st2 := set_sem (sem st - 1 + 1)
               (add_request (url, o) (set_world w (set_sem (sem st - 1) st))) in
  match o with
  | Response body _ status =>
      add_log (DEBUG, MsgReadURL url (Some status) (length body)) st2
  | Failure TimeoutError => add_log (ERROR, MsgTimedOut url) st2
  | Failure _ => st2
  end.

(** How many of the first [i] GETs were archived. *)
Definition archived_before (i : nat) (rs : list (str * outcome)) : nat :=
  length (filter (fun r => archivable r = true) (take i rs)).

(** The account of one run [out] of the loop over the links of a comment,
    started with [link_num = n] in the state [st]: the GETs made, [rs], are
    the first links in the order of the document, the files written, [ws],
    are numbered from [n] on by the links archived before, and a loop that
    returns has fetched every link. *)
Definition links_account (dir : Path) (cid : str) (n : nat)
    (urls : list str) (st : State World) (out : Result nat * State World)
    (rs : list (str * outcome)) (ws : list (Path * bytes)) : Prop :=
  requests (snd out) = requests st ++ rs
  /\ map fst rs `prefix_of` urls
  /\ written (snd out) = written st ++ ws
  /\ length ws = length (filter (fun r => archivable r = true) rs)
  /\ (forall i url body ct status,
        rs !! i = Some (url, Response body ct status) ->
        archivable (url, Response body ct status) = true ->
        ws !! archived_before i rs
        = Some (dir ++ [link_fname cid (n + archived_before i rs)
                          (Some ct) url], body))
  /\ (forall n', fst out = Ok n' ->
        map fst rs = urls /\ n' = (n + length ws)%nat).

(** How often [id] occurs in a trace. *)
Definition occurrences (id : str) (l : list str) : nat :=
  length (filter (fun x => x = id) l).


(** Started in a state where [id] is a key of [parsed_news], the
    computation does not hand [id] to [parse_item] and leaves it a key. *)
Definition never_redispatches {A} (id : str) (m : M World A) : Prop :=
  forall st, id ∈ dom (parsed_news st) ->
    id ∈ dom (parsed_news (snd (m st)))
    /\ exists l, dispatched (snd (m st)) = dispatched st ++ l /\ id ∉ l.

End Vocabulary.

(** ** The entry point *)





Section EntryPoint.

Context `{env : Env World}.





End EntryPoint.

(** ** A scripted world

    The world is the list of the outcomes still to come: each GET takes the
    next one, whatever the address.  Pages are parsed as in [Demo]. *)
Module Script.

#[global] Instance env : Env (list outcome) := {|
  http_get := fun _ _ _ script =>
    match script with
    | o :: rest => (o, rest)
    | [] => (Failure ClientError, [])
    end;
  BeautifulSoup := Demo.parse;
  unicode_isalnum := fun _ => false
|}.

Definition start (script : list outcome) : State (list outcome) :=
  {| world := script; sem := 10; requests := []; dirs := []; written := [];
     log := []; examined := []; dispatched := []; parsed_news := ∅ |}.

Definition ok (body : bytes) : outcome := Response body (u "text/html") 200.

(** The same with a semaphore of capacity zero, [max_tasks=0]. *)
Definition closed (script : list outcome) : State (list outcome) :=
  set_sem 0 (start script).

(** A crawler that polls for ever. *)
Definition poller : YCrawler :=
  {| site := SITE; sleep := 60; top_news_count := 5; root := u "web";
     run_once := false |}.


(** A front-page entry whose title anchor has no [href]. *)
Definition item_no_href : Item :=
  {| item_id := Some (u "7");
     titlelines := [Some {| a_text := u "No link"; a_href := None |}] |}.

(** A comment whose second anchor has no [href]. *)
Definition comment_no_href : Comment :=
  {| comment_id := Some (u "c2");
     commtext := Some [Demo.link "http://x/b";
                       {| a_text := u "bare"; a_href := None |}] |}.

End Script.

(** ** Vocabulary of the further statements *)

Section MoreVocabulary.

Context {World : Type}.

(** The computation gives back every permit it takes and, started with a
    free semaphore, does not wait for ever. *)
Definition balanced {A} (m : M World A) : Prop :=
  forall st, sem (snd (m st)) = sem st
             /\ ((0 < sem st)%Z -> fst (m st) <> Blocked).

(** The computation keeps the property [P] of the state, however it ends. *)
Definition preserves (P : State World -> Prop) {A} (m : M World A) : Prop :=
  forall st, P st -> P (snd (m st)).

(** The payload of the outcome is false for [if not response]: a timeout
    or an empty body. *)
Definition empty_payload (o : outcome) : bool :=
  match o with
  | Response body _ _ => negb (truthy (Some body))
  | Failure TimeoutError => true
  | Failure _ => false
  end.

(** The exception of lines 101-103 on an entry without a usable title
    anchor. *)
Definition titleline_error (it : Item) : option exn :=
  match titlelines it with
  | [] => Some IndexError
  | None :: _ => Some AttributeError
  | Some a :: _ =>
      match a_href a with
      | None => Some KeyError
      | Some _ => None
      end
  end.

Definition is_digit (c : N) : bool := (48 <=? c) && (c <=? 57).

End MoreVocabulary.

(** * Properties *)

(** ** The definitions at work *)

Example msf_example :
  forall ua, make_safe_filename ua (u "A/B: C?") = u "A_B_ C.html".
Proof. reflexivity. Qed.

Example path_name_example :
  path_name (u "http://x/b.pdf?x=1") = u "b.pdf?x=1"
  /\ path_name (u "http://x/dir/") = u "dir"
  /\ before_first 63 (u "b.pdf?x=1") = u "b.pdf"
  /\ str_of_nat 0 = u "0" /\ str_of_nat 12 = u "12".
Proof. vm_compute. repeat split; reflexivity. Qed.

Example slice_to_examples :
  slice_to [1; 2; 3] 2 = [1; 2] /\ slice_to [1; 2; 3] 5 = [1; 2; 3]
  /\ slice_to [1; 2; 3] 0 = [] /\ slice_to [1; 2; 3] (-1) = [1; 2].
Proof. repeat split. Qed.

Example demo_init : init_state O 10 = Some Demo.start.
Proof. reflexivity. Qed.

Example demo_run :
  let '(r, st) := run Demo.crawler 3 Demo.start in
  r = Raise AttributeError
  /\ dispatched st = [u "123"; u "404"]
  /\ map fst (written st) =
       [[u "web"; u "123"; u "Hello World.html"];
        Demo.comments_dir ++ [u "c1_0.html"];
        [u "web"; u "404"; u "Lost.html"]]
  /\ dom (parsed_news st) = {[ u "123" ]}.
Proof. vm_compute. repeat split; try reflexivity. Qed.


(** ** Stripping and sanitising *)

Lemma lstrip_split (p : N -> bool) (s : str) :
  exists pre, s = pre ++ lstrip p s /\ Forall (fun c => p c = true) pre.
Proof.
  induction s as [|c s [pre [E F]]]; simpl.
  - exists []. split; [reflexivity | constructor].
  - destruct (p c) eqn:Hc.
    + exists (c :: pre). split; [simpl; congruence | constructor; assumption].
    + exists []. split; [reflexivity | constructor].
Qed.

Lemma lstrip_head (p : N -> bool) (s : str) (c : N) :
  head (lstrip p s) = Some c -> p c = false.
Proof.
  induction s as [|a s IH]; simpl; [discriminate |].
  destruct (p a) eqn:Ha; [exact IH |].
  simpl. intros [= <-]. exact Ha.
Qed.

Lemma last_rev_head (s : str) : last (rev s) = head s.
Proof. destruct s as [|a s]; [reflexivity | simpl; apply last_snoc]. Qed.

Lemma rstrip_split (p : N -> bool) (s : str) :
  exists post, s = rstrip p s ++ post /\ Forall (fun c => p c = true) post.
Proof.
  unfold rstrip. destruct (lstrip_split p (rev s)) as [pre [E F]].
  exists (rev pre). split.
  - rewrite <- rev_app_distr, <- E, rev_involutive. reflexivity.
  - apply Forall_forall. intros c Hc. rewrite Forall_forall in F.
    apply F. apply list_elem_of_In. apply in_rev.
    apply list_elem_of_In. exact Hc.
Qed.

Lemma rstrip_last (p : N -> bool) (s : str) (c : N) :
  last (rstrip p s) = Some c -> p c = false.
Proof. unfold rstrip. rewrite last_rev_head. apply lstrip_head. Qed.

Lemma rstrip_head (p : N -> bool) (s : str) (c : N) :
  head (rstrip p s) = Some c -> head s = Some c.
Proof.
  destruct (rstrip_split p s) as [post [E _]]. intros H.
  rewrite E, head_app, H. reflexivity.
Qed.

Lemma strip_split (p : N -> bool) (s : str) :
  exists pre post,
    s = pre ++ strip p s ++ post
    /\ Forall (fun c => p c = true) pre
    /\ Forall (fun c => p c = true) post.
Proof.
  destruct (lstrip_split p s) as [pre [E F]].
  destruct (rstrip_split p (lstrip p s)) as [post [E' F']].
  exists pre, post. unfold strip. rewrite <- E', <- E. auto.
Qed.

Lemma strip_ends (p : N -> bool) (s : str) (c : N) :
  head (strip p s) = Some c \/ last (strip p s) = Some c -> p c = false.
Proof.
  unfold strip. intros [H | H].
  - apply rstrip_head in H. exact (lstrip_head _ _ _ H).
  - exact (rstrip_last _ _ _ H).
Qed.

Lemma in_chars_underscore_space (c : N) :
  in_chars (u "_ ") c = true <-> c = underscore \/ c = space.
Proof.
  unfold in_chars, underscore, space. simpl.
  rewrite !orb_true_iff, !N.eqb_eq. intuition discriminate.
Qed.

Lemma safe_char_class (ua : N -> bool) (c : N) :
  isalnum ua (safe_char ua c) = true \/ isspace (safe_char ua c) = true
  \/ safe_char ua c = underscore.
Proof.
  unfold safe_char.
  destruct (isalnum ua c) eqn:A; simpl; [left; exact A |].
  destruct (isspace c) eqn:S.
  - right. left. exact S.
  - right. right. reflexivity.
Qed.

(** C6, as the code has it.  [make_safe_filename] keeps every character
    that is alphanumeric or whitespace and writes an underscore for any
    other, then removes underscores and SPACE characters (U+0020, the two
    characters of [strip('_ ')]) from both ends, and appends [.html]: the
    stem is what is left of the rewritten text between a prefix and a suffix
    made of underscores and spaces only, it neither starts nor ends with an
    underscore or a space, and each of its characters is alphanumeric,
    whitespace or an underscore.  [make_safe_filename("A/B: C?")] is
    [A_B_ C.html]. *)
Theorem make_safe_filename_spec (ua : N -> bool) (text : str) :
  exists stem pre post : str,
    make_safe_filename ua text = stem ++ u ".html"
    /\ map (safe_char ua) text = pre ++ stem ++ post
    /\ (forall i c, text !! i = Some c ->
          map (safe_char ua) text !! i =
            Some (if isalnum ua c || isspace c then c else underscore))
    /\ Forall (fun c => c = underscore \/ c = space) pre
    /\ Forall (fun c => c = underscore \/ c = space) post
    /\ (forall c, head stem = Some c \/ last stem = Some c ->
          c <> underscore /\ c <> space)
    /\ Forall (fun c => isalnum ua c = true \/ isspace c = true
                        \/ c = underscore) stem
    /\ make_safe_filename ua (u "A/B: C?") = u "A_B_ C.html".
Proof.
  destruct (strip_split (in_chars (u "_ ")) (map (safe_char ua) text))
    as [pre [post [E [Fpre Fpost]]]].
  exists (strip (in_chars (u "_ ")) (map (safe_char ua) text)), pre, post.
  split; [reflexivity |]. split; [exact E |].
  split.
  { intros i c Hi. rewrite list_lookup_fmap, Hi. reflexivity. }
  split.
  { eapply Forall_impl; [exact Fpre |].
    intros c. apply in_chars_underscore_space. }
  split.
  { eapply Forall_impl; [exact Fpost |].
    intros c. apply in_chars_underscore_space. }
  split.
  { intros c H. apply strip_ends in H.
    split; intros ->; vm_compute in H; discriminate. }
  split; [| reflexivity].
  apply Forall_forall. intros c Hc.
  assert (Hin : c ∈ map (safe_char ua) text).
  { rewrite E. rewrite !elem_of_app. auto. }
  apply list_elem_of_fmap in Hin. destruct Hin as [c0 [-> _]].
  apply safe_char_class.
Qed.

(** C6 as stated fails: a leading TAB is whitespace and is kept. *)
Lemma make_safe_filename_keeps_tab :
  make_safe_filename (fun _ => false) [9; 65] = [9; 65] ++ u ".html"
  /\ isspace 9 = true
  /\ head (make_safe_filename (fun _ => false) [9; 65]) = Some 9.
Proof. vm_compute. repeat split; reflexivity. Qed.

(** ** The admission gate *)

Module GateFacts.
Import Gate.

Lemma in_flight_cons (c : call) (l : list call) (v v' : Z) :
  Z.of_nat (in_flight {| value := v; calls := c :: l |})
  = (weight c + Z.of_nat (in_flight {| value := v'; calls := l |}))%Z.
Proof.
  unfold in_flight, weight. simpl. rewrite filter_cons.
  destruct (is_in_flight c); simpl.
  - destruct (decide (true = true)); [simpl; lia | congruence].
  - destruct (decide (false = true)); [discriminate | lia].
Qed.

Lemma in_flight_app (l : list call) (c : call) (v v' : Z) :
  Z.of_nat (in_flight {| value := v; calls := l ++ [c] |})
  = (Z.of_nat (in_flight {| value := v'; calls := l |}) + weight c)%Z.
Proof.
  induction l as [|a l IH]; simpl.
  - rewrite (in_flight_cons c [] v v'). unfold in_flight. simpl. lia.
  - rewrite (in_flight_cons a (l ++ [c]) v v), IH.
    rewrite (in_flight_cons a l v' v'). lia.
Qed.

Lemma in_flight_move (g : gate) (i : nat) (c : call) (p : point) (v : Z) :
  calls g !! i = Some c ->
  (Z.of_nat (in_flight (move i p g v)) + weight c
   = Z.of_nat (in_flight g)
     + weight {| origin := origin c; at_point := p |})%Z.
Proof.
  destruct g as [v0 l]. unfold move. simpl. revert i.
  induction l as [|a l IH]; intros i Hi; [discriminate |].
  destruct i as [|i]; simpl in *.
  - injection Hi as ->.
    rewrite (in_flight_cons _ l v v0), (in_flight_cons c l v0 v0). lia.
  - specialize (IH i Hi).
    rewrite (in_flight_cons a _ v v), (in_flight_cons a l v0 v0).
    change (list_alter ?f i l) with (alter f i l). lia.
Qed.

(** The counter and the calls inside the block always add up to the
    capacity. *)
Lemma step_balance (g g' : gate) :
  step g g' ->
  (Z.of_nat (in_flight g') + value g' = Z.of_nat (in_flight g) + value g)%Z
  /\ ((0 <= value g)%Z -> (0 <= value g')%Z).
Proof.
  intros H. destruct H as [g s | g i c Hc Hp | g i c Hc Hp Hv
                          | g i c Hc Hp | g i c Hc Hp].
  - simpl. rewrite (in_flight_app (calls g) _ (value g) (value g)).
    unfold weight, is_in_flight. simpl. destruct g. simpl. split; lia.
  - pose proof (in_flight_move g i c Waiting (value g) Hc) as E.
    unfold weight, is_in_flight in E. simpl in *. rewrite Hp in E.
    split; lia.
  - pose proof (in_flight_move g i c InFlight (value g - 1) Hc) as E.
    unfold weight, is_in_flight in E. simpl in *.
    destruct Hp as [Hp | Hp]; rewrite Hp in E; split; lia.
  - pose proof (in_flight_move g i c Left (value g + 1) Hc) as E.
    unfold weight, is_in_flight in E. simpl in *. rewrite Hp in E.
    split; lia.
  - pose proof (in_flight_move g i c Left (value g) Hc) as E.
    unfold weight, is_in_flight in E. simpl in *. rewrite Hp in E.
    split; lia.
Qed.

Lemma reachable_balance (g g' : gate) :
  rtc step g g' ->
  (0 <= value g)%Z ->
  (Z.of_nat (in_flight g') + value g' = Z.of_nat (in_flight g) + value g)%Z
  /\ (0 <= value g')%Z.
Proof.
  induction 1 as [g | g g1 g2 Hs _ IH]; intros Hv.
  { split; [reflexivity | exact Hv]. }
  destruct (step_balance _ _ Hs) as [E P].
  destruct (IH (P Hv)) as [E' P']. split; [lia | exact P'].
Qed.

(** C1.  Whatever calls of [read_url] are made, from the front page, a
    story page or a comment link, and however they are scheduled, the
    number of calls inside [async with self.semaphore], that is the number
    of fetches in flight, never exceeds [max_tasks]: it is [max_tasks]
    minus the semaphore's counter, which is never negative. *)
Theorem in_flight_bounded (max_tasks : Z) (g0 g : gate) :
  init max_tasks = Some g0 ->
  rtc step g0 g ->
  (Z.of_nat (in_flight g) <= max_tasks)%Z
  /\ (Z.of_nat (in_flight g) = max_tasks - value g)%Z
  /\ (0 <= value g)%Z.
Proof.
  unfold init. intros Hinit Hreach.
  destruct (max_tasks <? 0)%Z eqn:Hneg; [discriminate |].
  injection Hinit as <-. apply Z.ltb_ge in Hneg.
  destruct (reachable_balance _ _ Hreach Hneg) as [E P].
  unfold in_flight in E at 2. simpl in E. lia.
Qed.

(** One call of [read_url] that finds the semaphore free is a run of the
    gate: the call arrives, enters and leaves, and the counter is back. *)
Lemma one_call_run (v : Z) (l : list call) (s : call_site) :
  (0 < v)%Z ->
  rtc step {| value := v; calls := l |}
           {| value := v - 1 + 1;
              calls := l ++ [{| origin := s; at_point := Left |}] |}.
Proof.
  intros Hv.
  eapply rtc_l; [apply (step_call _ s) |]. cbn [value calls].
  eapply rtc_l.
  { eapply (step_enter _ (length l)); cbn [value calls].
    - apply list_lookup_middle. reflexivity.
    - left. reflexivity.
    - exact Hv. }
  unfold move. cbn [value calls origin].
  rewrite (alter_app_r_alt _ l _ (length l)) by lia.
  rewrite Nat.sub_diag. cbn [alter list_alter].
  eapply rtc_l.
  { eapply (step_leave _ (length l)); cbn [value calls].
    - apply list_lookup_middle. reflexivity.
    - reflexivity. }
  unfold move. cbn [value calls origin].
  rewrite (alter_app_r_alt _ l _ (length l)) by lia.
  rewrite Nat.sub_diag. cbn [alter list_alter origin].
  apply rtc_refl.
Qed.

Lemma busy_reachable : rtc step {| value := 1; calls := [] |} busy.
Proof.
  eapply rtc_l; [apply (step_call _ FrontPage) |].
  eapply rtc_l; [apply (step_call _ CommentLink) |].
  eapply rtc_l.
  { eapply (step_enter _ 0); [reflexivity | left; reflexivity | reflexivity]. }
  eapply rtc_l; [eapply (step_wait _ 1); reflexivity |].
  apply rtc_refl.
Defined.

Lemma in_flight_bounded_witness :
  (Z.of_nat (in_flight busy) <= 1)%Z
  /\ (Z.of_nat (in_flight busy) = 1 - value busy)%Z
  /\ (0 <= value busy)%Z.
Proof.
  apply (in_flight_bounded 1 {| value := 1; calls := [] |} busy).
  - reflexivity.
  - exact busy_reachable.
Defined.

End GateFacts.

(** ** Frame properties of the crawler's steps *)

Section CrawlerFacts.

Context `{env : Env World}.

Lemma untouched_refl (st : State World) : untouched st st.
Proof. repeat split. Qed.

Lemma untouched_trans (st1 st2 st3 : State World) :
  untouched st1 st2 -> untouched st2 st3 -> untouched st1 st3.
Proof. unfold untouched. intuition congruence. Qed.

Lemma keeps_ret {A} (a : A) : keeps (mret a : M World A).
Proof. intros st. split; [apply untouched_refl | discriminate]. Qed.

Lemma keeps_raise {A} (e : exn) : keeps (raise e : M World A).
Proof. intros st. split; [apply untouched_refl | discriminate]. Qed.

Lemma keeps_bind {A B} (m : M World A) (f : A -> M World B) :
  keeps m -> (forall a, keeps (f a)) -> keeps (m ≫= f).
Proof.
  intros Hm Hf st. destruct (Hm st) as [U NB].
  unfold mbind, M_bind. destruct (m st) as [[a | e |] st1]; simpl in *.
  - destruct (Hf a st1) as [U' NB']. split.
    + eapply untouched_trans; eassumption.
    + intros Hs. apply NB'. destruct U as [-> _]. exact Hs.
  - split; [exact U | discriminate].
  - split; [exact U |]. intros Hs _. exact (NB Hs eq_refl).
Qed.

Lemma keeps_logging (l : level) (m : message) :
  keeps (logging l m : M World unit).
Proof. intros st. split; [repeat split | discriminate]. Qed.

Lemma keeps_write_file (fp : Path) (content : option bytes) :
  keeps (write_file fp content : M World unit).
Proof.
  intros st. unfold write_file.
  destruct (bool_decide (parent fp ∈ dirs st)), content;
    (split; [repeat split | discriminate]).
Qed.

Lemma keeps_read_url (url : str) (session : Session) (proxy : option str) :
  keeps (read_url url session proxy).
Proof.
  intros st. unfold read_url.
  destruct (sem st <=? 0)%Z eqn:Hs.
  - split; [apply untouched_refl |]. apply Z.leb_le in Hs. lia.
  - simpl. destruct (http_get session url proxy (world st)) as [o w].
    destruct o as [body ct status | e]; [| destruct e];
      (split; [unfold untouched; simpl; repeat split; lia | discriminate]).
Qed.

Lemma keeps_download_links (session : Session) (dir : Path) (comm_id : str)
    (comm_urls : list str) (link_num : nat) :
  keeps (download_links session dir comm_id link_num comm_urls).
Proof.
  revert link_num. induction comm_urls as [|url rest IH]; intros n; simpl.
  - apply keeps_ret.
  - apply keeps_bind; [apply keeps_read_url |].
    intros [[response content_type] status].
    destruct (negb (truthy response) || negb (status_is status 200)).
    + apply keeps_bind; [apply keeps_logging | intros _; apply IH].
    + apply keeps_bind; [apply keeps_write_file | intros _; apply IH].
Qed.

Lemma keeps_for_comments (session : Session) (dir : Path)
    (comment_items : list Comment) :
  keeps (for_comments session dir comment_items).
Proof.
  induction comment_items as [|comment rest IH]; simpl.
  - apply keeps_ret.
  - destruct (comment_id comment); [| apply keeps_raise].
    destruct (match commtext comment with
              | Some anchors => hrefs anchors
              | None => Some []
              end); [| apply keeps_raise].
    apply keeps_bind; [apply keeps_download_links | intros _; apply IH].
Qed.

Lemma keeps_soup_of (response : option bytes) :
  keeps (soup_of response : M World Soup).
Proof. destruct response; [apply keeps_ret | apply keeps_raise]. Qed.

Lemma keeps_parse_comments (c : YCrawler) (response : option bytes)
    (item : Item) (session : Session) :
  keeps (parse_comments c response item session).
Proof.
  unfold parse_comments. apply keeps_bind; [apply keeps_soup_of |].
  intros bs. destruct (table bs) as [t |]; [| apply keeps_raise].
  destruct (match comment_tree t with Some rows => rows | None => [] end);
    [apply keeps_ret |].
  destruct (item_id item); [apply keeps_for_comments | apply keeps_raise].
Qed.

Lemma keeps_parse_item (c : YCrawler) (item : Item) (session : Session) :
  keeps (parse_item c item session).
Proof.
  unfold parse_item. destruct (item_id item) as [id |]; [| apply keeps_raise].
  apply keeps_bind; [apply keeps_logging | intros _].
  apply keeps_bind; [apply keeps_read_url |].
  intros [[response ct] status].
  destruct (negb (truthy response)).
  - apply keeps_bind; [apply keeps_logging | intros _; apply keeps_ret].
  - destruct (titlelines item) as [| [a |] tl]; try apply keeps_raise.
    destruct (a_href a); [| apply keeps_raise].
    apply keeps_bind; [apply keeps_logging | intros _].
    apply keeps_bind; [apply keeps_write_file | intros _].
    apply keeps_bind; [apply keeps_parse_comments | intros _; apply keeps_ret].
Qed.

Lemma keeps_parse_main_page (c : YCrawler) (session : Session) :
  keeps (parse_main_page c session).
Proof.
  unfold parse_main_page. apply keeps_bind; [apply keeps_read_url |].
  intros [[response ct] status].
  destruct (negb (truthy response) || negb (status_is status 200)).
  - apply keeps_bind; [apply keeps_logging | intros _; apply keeps_ret].
  - apply keeps_bind; [apply keeps_soup_of | intros bs].
    destruct (table bs); [apply keeps_ret | apply keeps_raise].
Qed.

(** ** The loop over the news *)

Lemma news_step_seen (c : YCrawler) (session : Session) (it : Item)
    (id : str) (st : State World) :
  item_id it = Some id -> id ∈ dom (parsed_news st) ->
  news_step c session it st
  = (Ok tt, add_log (DEBUG, MsgAlreadyParsed id) (add_examined id st)).
Proof.
  intros Hid Hseen. apply elem_of_dom in Hseen. destruct Hseen as [tpl Htpl].
  unfold news_step. rewrite Hid.
  unfold mbind, M_bind, mark_examined, get_parsed_news. simpl.
  rewrite Htpl. reflexivity.
Qed.

Lemma news_step_absent (c : YCrawler) (session : Session) (it : Item)
    (id : str) (st : State World) :
  item_id it = Some id -> parsed_news st !! id = None ->
  news_step c session it st
  = match parse_item c it session (add_dispatched id (add_examined id st)) with
    | (Ok (Some tpl), st1) =>
        (Ok tt, set_parsed_news (<[id := tpl]> (parsed_news st1)) st1)
    | (Ok None, st1) => (Ok tt, st1)
    | (Raise e, st1) => (Raise e, st1)
    | (Blocked, st1) => (Blocked, st1)
    end.
Proof.
  intros Hid Habs. unfold news_step. rewrite Hid.
  unfold mbind, M_bind, mark_examined, get_parsed_news, mark_dispatched.
  simpl. rewrite Habs.
  destruct (parse_item c it session (add_dispatched id (add_examined id st)))
    as [[[tpl |] | e |] st1]; reflexivity.
Qed.

(** What one turn of the loop does to the dictionary and to the traces. *)
Lemma news_step_books (c : YCrawler) (session : Session) (it : Item)
    (st : State World) :
  let st' := snd (news_step c session it st) in
  sem st' = sem st
  /\ match item_id it with
     | None => st' = st /\ fst (news_step c session it st) = Raise KeyError
     | Some id =>
         examined st' = examined st ++ [id]
         /\ match parsed_news st !! id with
            | Some _ =>
                dispatched st' = dispatched st
                /\ parsed_news st' = parsed_news st
            | None =>
                dispatched st' = dispatched st ++ [id]
                /\ match parse_item c it session
                           (add_dispatched id (add_examined id st)) with
                   | (Ok (Some tpl), _) =>
                       parsed_news st' = <[id := tpl]> (parsed_news st)
                   | _ => parsed_news st' = parsed_news st
                   end
            end
     end.
Proof.
  destruct (item_id it) as [id |] eqn:Hid.
  - destruct (parsed_news st !! id) as [tpl |] eqn:Hl.
    + assert (Hseen : id ∈ dom (parsed_news st))
        by (apply elem_of_dom; eexists; exact Hl).
      rewrite (news_step_seen c session it id st Hid Hseen). simpl. auto.
    + rewrite (news_step_absent c session it id st Hid Hl).
      destruct (keeps_parse_item c it session
                  (add_dispatched id (add_examined id st)))
        as [(Hs & Hp & Hd & He) _].
      destruct (parse_item c it session
                  (add_dispatched id (add_examined id st)))
        as [[[tpl |] | e |] st1]; simpl in *;
        rewrite ?Hs, ?Hp, ?Hd, ?He; auto.
  - unfold news_step. rewrite Hid. simpl. auto.
Qed.

Lemma for_news_app (c : YCrawler) (session : Session) (pre rest : list Item)
    (st : State World) :
  for_news c session (pre ++ rest) st
  = match for_news c session pre st with
    | (Ok Exhausted, st1) => for_news c session rest st1
    | other => other
    end.
Proof.
  revert st. induction pre as [|it pre IH]; intros st; simpl; [reflexivity |].
  destruct (news_step c session it st) as [[[] | e |] st1]; simpl.
  - apply IH.
  - destruct e; reflexivity.
  - reflexivity.
Qed.


(** ** Identifiers already seen *)

Lemma keeps_never {A} (id : str) (m : M World A) :
  keeps m -> never_redispatches id m.
Proof.
  intros Hm st Hseen. destruct (Hm st) as [(_ & Hp & Hd & _) _].
  rewrite Hp, Hd. split; [exact Hseen |].
  exists []. rewrite app_nil_r. split; [reflexivity | apply not_elem_of_nil].
Qed.

Lemma never_bind {A B} (id : str) (m : M World A) (f : A -> M World B) :
  never_redispatches id m -> (forall a, never_redispatches id (f a)) ->
  never_redispatches id (m ≫= f).
Proof.
  intros Hm Hf st Hseen. destruct (Hm st Hseen) as [Hin [l [Hd Hl]]].
  unfold mbind, M_bind. destruct (m st) as [[a | e |] st1]; simpl in *;
    try (split; [exact Hin | exists l; auto]).
  destruct (Hf a st1 Hin) as [Hin' [l' [Hd' Hl']]].
  split; [exact Hin' |]. exists (l ++ l').
  rewrite Hd', Hd, app_assoc. split; [reflexivity |].
  rewrite elem_of_app. tauto.
Qed.

Lemma never_news_step (id : str) (c : YCrawler) (session : Session)
    (it : Item) : never_redispatches id (news_step c session it).
Proof.
  intros st Hseen. pose proof (news_step_books c session it st) as [_ B].
  destruct (item_id it) as [j |].
  - destruct B as [_ B]. destruct (parsed_news st !! j) as [tpl |] eqn:Hj.
    + destruct B as [Hd Hp]. rewrite Hd, Hp. split; [exact Hseen |].
      exists []. rewrite app_nil_r.
      split; [reflexivity | apply not_elem_of_nil].
    + destruct B as [Hd Hp]. split.
      * destruct (parse_item c it session
                    (add_dispatched j (add_examined j st)))
          as [[[tpl |] | e |] st1]; rewrite Hp; try exact Hseen.
        rewrite dom_insert_L. apply elem_of_union. right. exact Hseen.
      * exists [j]. split; [exact Hd |]. intros Hin.
        apply list_elem_of_singleton in Hin. subst j.
        apply elem_of_dom in Hseen. rewrite Hj in Hseen.
        destruct Hseen as [x Hx]. discriminate.
  - destruct B as [-> _]. split; [exact Hseen |].
    exists []. rewrite app_nil_r. split; [reflexivity | apply not_elem_of_nil].
Qed.

Lemma never_for_news (id : str) (c : YCrawler) (session : Session)
    (items : list Item) : never_redispatches id (for_news c session items).
Proof.
  induction items as [|it items IH]; intros st Hseen; simpl.
  - split; [exact Hseen |]. exists []. rewrite app_nil_r.
    split; [reflexivity | apply not_elem_of_nil].
  - destruct (never_news_step id c session it st Hseen) as [Hin [l [Hd Hl]]].
    destruct (news_step c session it st) as [[[] | e |] st1]; simpl in *.
    + destruct (IH st1 Hin) as [Hin' [l' [Hd' Hl']]].
      split; [exact Hin' |]. exists (l ++ l').
      rewrite Hd', Hd, app_assoc. split; [reflexivity |].
      rewrite elem_of_app. tauto.
    + destruct e; simpl; (split; [exact Hin | exists l; auto]).
    + split; [exact Hin | exists l; auto].
Qed.

Lemma never_cycle (id : str) (c : YCrawler) :
  never_redispatches id (cycle c).
Proof.
  unfold cycle. apply never_bind.
  - apply keeps_never, keeps_parse_main_page.
  - intros [[| it items] |].
    + apply keeps_never, keeps_bind;
        [apply keeps_logging | intros _; apply keeps_ret].
    + apply never_bind; [apply never_for_news | intros _].
      apply keeps_never, keeps_bind;
        [apply keeps_logging | intros _; apply keeps_ret].
    + apply keeps_never, keeps_bind;
        [apply keeps_logging | intros _; apply keeps_ret].
Qed.

Lemma never_run_loop (id : str) (c : YCrawler) (cycles : nat) :
  never_redispatches id (run_loop c cycles).
Proof.
  induction cycles as [|n IH]; simpl.
  - apply keeps_never, keeps_ret.
  - apply never_bind; [apply never_cycle |]. intros stop.
    destruct stop; [apply keeps_never, keeps_ret |].
    destruct (run_once c); [apply keeps_never, keeps_ret |].
    apply never_bind; [apply keeps_never, keeps_logging | intros _].
    apply never_bind; [apply keeps_never, keeps_logging | intros _].
    exact IH.
Qed.

(** C2.  Once [id] is a key of [parsed_news], a turn of the loop on an
    entry with that id only logs, at debug level, that the item is already
    parsed; the rest of the loop over the news and any number of further
    polling cycles never call [parse_item] for [id], and [id] stays a
    key. *)
Theorem seen_never_redispatched (c : YCrawler) (id : str) (st : State World)
    (Hseen : id ∈ dom (parsed_news st)) :
  (forall session it, item_id it = Some id ->
     news_step c session it st
     = (Ok tt, add_log (DEBUG, MsgAlreadyParsed id) (add_examined id st)))
  /\ (forall session items,
        let st' := snd (for_news c session items st) in
        id ∈ dom (parsed_news st')
        /\ exists l, dispatched st' = dispatched st ++ l /\ id ∉ l)
  /\ (forall cycles,
        let st' := snd (run_loop c cycles st) in
        id ∈ dom (parsed_news st')
        /\ exists l, dispatched st' = dispatched st ++ l /\ id ∉ l).
Proof.
  split; [| split].
  - intros session it Hid. apply news_step_seen; assumption.
  - intros session items. exact (never_for_news id c session items st Hseen).
  - intros cycles. exact (never_run_loop id c cycles st Hseen).
Qed.

(** ** The entries considered in a cycle *)

Lemma slice_to_take {A} (l : list A) (k : Z) :
  (0 <= k)%Z -> slice_to l k = take (Z.to_nat k) l.
Proof.
  intros Hk. unfold slice_to.
  destruct (k <? 0)%Z eqn:E; [apply Z.ltb_lt in E; lia | reflexivity].
Qed.




(** ** An id listed twice *)

Lemma occurrences_app (id : str) (l1 l2 : list str) :
  occurrences id (l1 ++ l2) = (occurrences id l1 + occurrences id l2)%nat.
Proof. unfold occurrences. rewrite filter_app, length_app. reflexivity. Qed.

Lemma occurrences_absent (id : str) (l : list str) :
  id ∉ l -> occurrences id l = O.
Proof.
  unfold occurrences. induction l as [|x l IH]; intros H; [reflexivity |].
  rewrite not_elem_of_cons in H. destruct H as [Hx Hl].
  rewrite filter_cons. destruct (decide (x = id)); [congruence | auto].
Qed.

(** The ids handed to [parse_item] by the loop are ids of its entries. *)
Lemma for_news_dispatched (c : YCrawler) (session : Session)
    (items : list Item) (st : State World) :
  exists l,
    dispatched (snd (for_news c session items st)) = dispatched st ++ l
    /\ forall id, id ∈ l -> exists it, it ∈ items /\ item_id it = Some id.
Proof.
  revert st. induction items as [|it items IH]; intros st; simpl.
  - exists []. rewrite app_nil_r. split; [reflexivity |].
    intros id H. apply elem_of_nil in H. contradiction.
  - pose proof (news_step_books c session it st) as [_ B].
    assert (Hstep : exists l0,
               dispatched (snd (news_step c session it st))
               = dispatched st ++ l0
               /\ forall id, id ∈ l0 -> item_id it = Some id).
    { destruct (item_id it) as [j |].
      - destruct B as [_ B]. destruct (parsed_news st !! j).
        + exists []. rewrite app_nil_r. split; [apply B |].
          intros id H. apply elem_of_nil in H. contradiction.
        + exists [j]. split; [apply B |].
          intros id H. apply list_elem_of_singleton in H. congruence.
      - destruct B as [-> _]. exists []. rewrite app_nil_r.
        split; [reflexivity |].
        intros id H. apply elem_of_nil in H. contradiction. }
    destruct Hstep as [l0 [Hd0 Hl0]].
    destruct (news_step c session it st) as [[[] | e |] st1]; simpl in *.
    + destruct (IH st1) as [l [Hd Hl]]. exists (l0 ++ l).
      rewrite Hd, Hd0, app_assoc. split; [reflexivity |].
      intros id H. apply elem_of_app in H. destruct H as [H | H].
      * exists it. split; [apply elem_of_cons; auto | auto].
      * destruct (Hl id H) as [x [Hx Hxid]]. exists x.
        split; [apply elem_of_cons; auto | exact Hxid].
    + exists l0. split; [destruct e; exact Hd0 |].
      intros id H. exists it. split; [apply elem_of_cons; auto | auto].
    + exists l0. split; [exact Hd0 |].
      intros id H. exists it. split; [apply elem_of_cons; auto | auto].
Qed.

(** C10.  Let [it] be the first entry of the cycle's list that carries
    [id], reached by the loop, and let its turn end with [id] newly a key
    of [parsed_news] (the call of [parse_item] was made and gave a pair).
    Then, whatever follows in the list, also further entries with the same
    id, [parse_item] is called exactly once for [id] in this loop. *)
Theorem duplicate_dispatched_once (c : YCrawler) (session : Session)
    (pre post : list Item) (it : Item) (id : str) (st st1 st2 : State World)
    (Hid : item_id it = Some id)
    (Hfirst : forall x, x ∈ pre -> item_id x <> Some id)
    (Hpre : for_news c session pre st = (Ok Exhausted, st1))
    (Hdispatch : id ∉ dom (parsed_news st1))
    (Hstep : news_step c session it st1 = (Ok tt, st2))
    (Hstored : id ∈ dom (parsed_news st2)) :
  exists l,
    dispatched (snd (for_news c session (pre ++ it :: post) st))
    = dispatched st ++ l
    /\ occurrences id l = 1%nat.
Proof.
  rewrite for_news_app, Hpre. simpl. rewrite Hstep.
  destruct (for_news_dispatched c session pre st) as [l1 [Hd1 Hl1]].
  rewrite Hpre in Hd1. simpl in Hd1.
  pose proof (news_step_books c session it st1) as [_ B].
  rewrite Hid, Hstep in B. simpl in B. destruct B as [_ B].
  assert (Habs : parsed_news st1 !! id = None).
  { apply not_elem_of_dom. exact Hdispatch. }
  rewrite Habs in B. destruct B as [Hd2 _].
  destruct (never_for_news id c session post st2 Hstored) as [_ [l3 [Hd3 Hl3]]].
  exists (l1 ++ [id] ++ l3). split.
  - rewrite Hd3, Hd2, Hd1, <- !app_assoc. reflexivity.
  - rewrite !occurrences_app, (occurrences_absent id l3 Hl3).
    rewrite (occurrences_absent id l1).
    + unfold occurrences. rewrite filter_cons.
      destruct (decide (id = id)); [reflexivity | congruence].
    + intros Hin. destruct (Hl1 id Hin) as [x [Hx Hxid]].
      exact (Hfirst x Hx Hxid).
Qed.

(** ** Fetching *)

Lemma bind_ok {A B} (m : M World A) (f : A -> M World B)
    (st st1 : State World) (a : A) :
  m st = (Ok a, st1) -> (m ≫= f) st = f a st1.
Proof. intros H. unfold mbind, M_bind. rewrite H. reflexivity. Qed.

Lemma bind_raise {A B} (m : M World A) (f : A -> M World B)
    (st st1 : State World) (e : exn) :
  m st = (Raise e, st1) -> (m ≫= f) st = (Raise e, st1).
Proof. intros H. unfold mbind, M_bind. rewrite H. reflexivity. Qed.

Lemma bind_blocked {A B} (m : M World A) (f : A -> M World B)
    (st st1 : State World) :
  m st = (Blocked, st1) -> (m ≫= f) st = (Blocked, st1).
Proof. intros H. unfold mbind, M_bind. rewrite H. reflexivity. Qed.

(** A call of [read_url] that finds the semaphore free issues one GET. *)
Lemma read_url_eq (url : str) (session : Session) (proxy : option str)
    (st : State World) (o : outcome) (w : World) :
  (0 < sem st)%Z ->
  http_get session url proxy (world st) = (o, w) ->
  read_url url session proxy st = (returned o, after_get url o w st).
Proof.
  intros Hsem Hget. unfold read_url, after_get.
  destruct (sem st <=? 0)%Z eqn:E; [apply Z.leb_le in E; lia |].
  cbn [world set_sem sem]. rewrite Hget.
  destruct o as [body ct status | e]; [| destruct e]; reflexivity.
Qed.

Lemma read_url_blocked (url : str) (session : Session) (proxy : option str)
    (st : State World) :
  (sem st <= 0)%Z -> read_url url session proxy st = (Blocked, st).
Proof.
  intros H. unfold read_url. apply Z.leb_le in H. rewrite H. reflexivity.
Qed.

Lemma after_get_books (url : str) (o : outcome) (w : World)
    (st : State World) :
  requests (after_get url o w st) = requests st ++ [(url, o)]
  /\ written (after_get url o w st) = written st
  /\ world (after_get url o w st) = w
  /\ sem (after_get url o w st) = (sem st - 1 + 1)%Z
  /\ dirs (after_get url o w st) = dirs st.
Proof.
  unfold after_get.
  destruct o as [body ct status | e]; [| destruct e]; repeat split.
Qed.

(** In the program as written, where the calls follow one another, a call
    of [read_url] is the run of the gate in which the call arrives, enters
    and leaves. *)
Lemma read_url_gate_run (url : str) (session : Session) (proxy : option str)
    (st : State World) (l : list Gate.call) (s : Gate.call_site) :
  (0 < sem st)%Z ->
  rtc Gate.step
    {| Gate.value := sem st; Gate.calls := l |}
    {| Gate.value := sem (snd (read_url url session proxy st));
       Gate.calls := l ++ [{| Gate.origin := s; Gate.at_point := Gate.Left |}]
    |}.
Proof.
  intros Hsem.
  destruct (http_get session url proxy (world st)) as [o w] eqn:Hget.
  rewrite (read_url_eq url session proxy st o w Hsem Hget). cbn [snd].
  destruct (after_get_books url o w st) as (_ & _ & _ & -> & _).
  apply GateFacts.one_call_run. exact Hsem.
Qed.

(** C4.  The session of a cycle has a total timeout of 5 seconds.  When a
    GET ends by a timeout, [read_url] returns [(None, None, 408)] after that
    one GET, with an error record in the log and no file written.  For the
    page of a story, [parse_item] then logs and returns [None] without
    writing anything or fetching again; for a comment link, the loop logs
    the error and goes on with the next link, the ordinal unchanged. *)
Theorem timeout_is_skipped (c : YCrawler) (session : Session) (url : str)
    (proxy : option str) (st : State World) (w' : World)
    (Hsem : (0 < sem st)%Z)
    (Htimeout : http_get session url proxy (world st)
                = (Failure TimeoutError, w')) :
  let st_t := snd (read_url url session proxy st) in
  timeout_total ClientSession = 5%Z
  /\ fst (read_url url session proxy st) = Ok (None, None, Some 408%Z)
  /\ requests st_t = requests st ++ [(url, Failure TimeoutError)]
  /\ written st_t = written st
  /\ log st_t = log st ++ [(ERROR, MsgTimedOut url)]
  /\ (proxy = None ->
      forall it id, item_id it = Some id ->
        url = site c ++ u "/item?id=" ++ id ->
        fst (parse_item c it session st) = Ok None
        /\ written (snd (parse_item c it session st)) = written st
        /\ requests (snd (parse_item c it session st))
           = requests st ++ [(url, Failure TimeoutError)])
  /\ (proxy = None ->
      forall dir comm_id link_num rest,
        download_links session dir comm_id link_num (url :: rest) st
        = download_links session dir comm_id link_num rest
            (add_log (ERROR, MsgCommentLinkError (Some 408%Z) url) st_t)).
Proof.
  intros st_t. subst st_t.
  rewrite (read_url_eq url session proxy st _ _ Hsem Htimeout).
  cbn [fst snd returned].
  destruct (after_get_books url (Failure TimeoutError) w' st)
    as (Hreq & Hw & _).
  split; [reflexivity |]. split; [reflexivity |]. split; [exact Hreq |].
  split; [exact Hw |]. split; [reflexivity |]. split.
  - intros -> it id Hid ->. unfold parse_item. rewrite Hid.
    erewrite bind_ok by reflexivity.
    erewrite bind_ok
      by (erewrite read_url_eq by (first [exact Hsem | exact Htimeout]);
          reflexivity).
    cbn [truthy negb].
    erewrite bind_ok by reflexivity.
    cbn [fst snd mret M_ret].
    split; [reflexivity |]. split; [exact Hw | exact Hreq].
  - intros -> dir comm_id link_num rest.
    cbn [download_links].
    erewrite bind_ok
      by (erewrite read_url_eq by (first [exact Hsem | exact Htimeout]);
          reflexivity).
    cbn [truthy negb orb].
    erewrite bind_ok by reflexivity. reflexivity.
Qed.

(** C3, as the code has it.  [read_url] catches the timeout only: an error
    of the transport that is not a timeout is not caught by
    [except TimeoutError]; it leaves [read_url], and with it the loop over
    the links of a comment. *)
Theorem transport_error_escapes (session : Session) (url : str)
    (proxy : option str) (st : State World) (w' : World) (e : exn)
    (Hsem : (0 < sem st)%Z)
    (Hfail : http_get session url proxy (world st) = (Failure e, w'))
    (Hnot : e <> TimeoutError) :
  fst (read_url url session proxy st) = Raise e
  /\ (proxy = None ->
      forall dir comm_id link_num rest,
        fst (download_links session dir comm_id link_num (url :: rest) st)
        = Raise e).
Proof.
  assert (Hre : returned (Failure e) = (Raise e : Result fetched))
    by (destruct e; [congruence | reflexivity ..]).
  rewrite (read_url_eq url session proxy st _ _ Hsem Hfail), Hre.
  split; [reflexivity |].
  intros -> dir comm_id link_num rest. cbn [download_links].
  erewrite bind_raise
    by (rewrite (read_url_eq url session None st _ _ Hsem Hfail), Hre;
        reflexivity).
  reflexivity.
Qed.

(** ** The links of a comment *)

Lemma write_file_some (fp : Path) (body : bytes) (st : State World) :
  exists st1 : State World,
    write_file fp (Some body) st = (Ok tt, st1)
    /\ written st1 = written st ++ [(fp, body)]
    /\ requests st1 = requests st
    /\ sem st1 = sem st
    /\ world st1 = world st.
Proof.
  unfold write_file. destruct (bool_decide (parent fp ∈ dirs st));
    eexists; (split; [reflexivity |]); repeat split.
Qed.

Lemma archivable_condition (url : str) (body : bytes) (ct : str)
    (status : Z) :
  negb (truthy (Some body)) || negb (status_is (Some status) 200)
  = negb (archivable (url, Response body ct status)).
Proof.
  unfold archivable, status_is. cbn [snd].
  destruct (truthy (Some body)), (status =? 200)%Z; reflexivity.
Qed.

Lemma archived_before_cons (i : nat) (r : str * outcome)
    (rs : list (str * outcome)) :
  archived_before (S i) (r :: rs)
  = ((if archivable r then 1 else 0) + archived_before i rs)%nat.
Proof.
  unfold archived_before. cbn [take]. rewrite filter_cons.
  destruct (archivable r).
  - destruct (decide (true = true)); [reflexivity | congruence].
  - destruct (decide (false = true)); [discriminate | reflexivity].
Qed.

Lemma links_account_skip (dir : Path) (cid : str) (n : nat) (url : str)
    (o : outcome) (rest : list str) (st st1 : State World)
    (out : Result nat * State World) (rs : list (str * outcome))
    (ws : list (Path * bytes)) :
  archivable (url, o) = false ->
  requests st1 = requests st ++ [(url, o)] ->
  written st1 = written st ->
  links_account dir cid n rest st1 out rs ws ->
  links_account dir cid n (url :: rest) st out ((url, o) :: rs) ws.
Proof.
  intros Hna Hr1 Hw1 (R & F & W & L & P & N).
  split; [rewrite R, Hr1, <- app_assoc; reflexivity |].
  split; [cbn [map fst]; apply prefix_cons; exact F |].
  split; [rewrite W, Hw1; reflexivity |].
  split.
  { rewrite filter_cons, Hna.
    destruct (decide (false = true)); [discriminate | exact L]. }
  split.
  { intros i url0 body ct status Hi Ha. destruct i as [|i].
    - cbn in Hi. injection Hi as E1 E2. rewrite E1, E2 in Hna. congruence.
    - rewrite archived_before_cons, Hna. cbn [Nat.add].
      apply (P i url0 body ct status Hi Ha). }
  intros n' Hn'. destruct (N n' Hn') as [F' N'].
  split; [cbn [map fst]; rewrite F'; reflexivity | exact N'].
Qed.

Lemma links_account_archive (dir : Path) (cid : str) (n : nat) (url : str)
    (body : bytes) (ct : str) (status : Z) (rest : list str)
    (st st1 : State World) (out : Result nat * State World)
    (rs : list (str * outcome)) (ws : list (Path * bytes)) :
  archivable (url, Response body ct status) = true ->
  requests st1 = requests st ++ [(url, Response body ct status)] ->
  written st1
  = written st ++ [(dir ++ [link_fname cid n (Some ct) url], body)] ->
  links_account dir cid (S n) rest st1 out rs ws ->
  links_account dir cid n (url :: rest) st out
    ((url, Response body ct status) :: rs)
    ((dir ++ [link_fname cid n (Some ct) url], body) :: ws).
Proof.
  intros Ha Hr1 Hw1 (R & F & W & L & P & N).
  split; [rewrite R, Hr1, <- app_assoc; reflexivity |].
  split; [cbn [map fst]; apply prefix_cons; exact F |].
  split; [rewrite W, Hw1, <- app_assoc; reflexivity |].
  split.
  { rewrite filter_cons, Ha.
    destruct (decide (true = true)); [cbn [length]; lia | congruence]. }
  split.
  { intros i url0 body0 ct0 status0 Hi Ha0. destruct i as [|i].
    - cbn in Hi. injection Hi as E1 E2 E3 E4. subst url0 body0 ct0.
      unfold archived_before. cbn [take filter length lookup].
      rewrite Nat.add_0_r. reflexivity.
    - rewrite archived_before_cons, Ha.
      change (1 + archived_before i rs)%nat
        with (S (archived_before i rs)).
      change ((?x :: ws) !! S (archived_before i rs))
        with (ws !! archived_before i rs).
      rewrite (P i url0 body0 ct0 status0 Hi Ha0).
      replace (n + S (archived_before i rs))%nat
        with (S n + archived_before i rs)%nat by lia.
      reflexivity. }
  intros n' Hn'. destruct (N n' Hn') as [F' N'].
  split; [cbn [map fst]; rewrite F'; reflexivity | cbn [length]; lia].
Qed.

Lemma links_account_stop (dir : Path) (cid : str) (n : nat)
    (urls : list str) (st : State World) (out : Result nat * State World) :
  snd out = st -> (forall n', fst out <> Ok n') ->
  links_account dir cid n urls st out [] [].
Proof.
  intros Hs Hf. unfold links_account. rewrite Hs.
  split; [rewrite app_nil_r; reflexivity |].
  split; [apply prefix_nil |].
  split; [rewrite app_nil_r; reflexivity |].
  split; [reflexivity |].
  split; [intros i ? ? ? ? Hi; destruct i; discriminate |].
  intros n' Hn'. destruct (Hf n' Hn').
Qed.

(** The account of the loop, however it ends. *)
Lemma download_links_account (session : Session) (dir : Path) (cid : str)
    (urls : list str) :
  forall (n : nat) (st : State World),
  exists rs ws,
    links_account dir cid n urls st
      (download_links session dir cid n urls st) rs ws.
Proof.
  induction urls as [|url rest IH]; intros n st.
  - exists [], []. cbn [download_links].
    split; [rewrite app_nil_r; reflexivity |].
    split; [apply prefix_nil |].
    split; [rewrite app_nil_r; reflexivity |].
    split; [reflexivity |].
    split; [intros i ? ? ? ? Hi; destruct i; discriminate |].
    intros n' [= <-]. split; [reflexivity | cbn; lia].
  - cbn [download_links].
    destruct (Z_le_gt_dec (sem st) 0) as [Hb | Hsem].
    { erewrite bind_blocked by (apply read_url_blocked; exact Hb).
      exists [], []. apply links_account_stop; [reflexivity | discriminate]. }
    apply Z.gt_lt in Hsem.
    destruct (http_get session url None (world st)) as [o w] eqn:Hget.
    pose proof (read_url_eq url session None st o w Hsem Hget) as E.
    destruct (after_get_books url o w st) as (Hreq & Hwr & _).
    destruct o as [body ct status | e].
    + erewrite bind_ok by (rewrite E; reflexivity).
      cbv beta iota.
      rewrite (archivable_condition url body ct status).
      destruct (archivable (url, Response body ct status)) eqn:Ha;
        cbn [negb].
      * destruct (write_file_some
                    (dir ++ [link_fname cid n (Some ct) url]) body
                    (after_get url (Response body ct status) w st))
          as (st1 & Ew & Hw1 & Hr1 & _).
        erewrite bind_ok by exact Ew.
        destruct (IH (S n) st1) as (rs & ws & A).
        eexists _, _.
        eapply links_account_archive; [| | | exact A].
        -- exact Ha.
        -- rewrite Hr1. exact Hreq.
        -- rewrite Hw1, Hwr. reflexivity.
      * erewrite bind_ok by reflexivity.
        destruct (IH n (add_log (ERROR, MsgCommentLinkError (Some status) url)
                          (after_get url (Response body ct status) w st)))
          as (rs & ws & A).
        eexists _, _.
        eapply links_account_skip; [| | | exact A];
          [exact Ha | exact Hreq | exact Hwr].
    + destruct e;
        try (erewrite bind_raise by (rewrite E; reflexivity);
             eexists _, _;
             eapply links_account_skip;
               [| | | apply links_account_stop;
                      [reflexivity | discriminate]];
               [| exact Hreq | exact Hwr]; reflexivity).
      erewrite bind_ok by (rewrite E; reflexivity).
      cbv beta iota. cbn [truthy negb orb].
      erewrite bind_ok by reflexivity.
      destruct (IH n (add_log (ERROR, MsgCommentLinkError (Some 408%Z) url)
                        (after_get url (Failure TimeoutError) w st)))
        as (rs & ws & A).
      eexists _, _.
      eapply links_account_skip; [| | | exact A];
        [| exact Hreq | exact Hwr]; reflexivity.
Qed.

(** The [j]-th archivable answer of a list exists when the list has more
    than [j] of them. *)
Lemma nth_archived (rs : list (str * outcome)) (j : nat) :
  (j < length (filter (fun r => archivable r = true) rs))%nat ->
  exists i r, rs !! i = Some r /\ archivable r = true
              /\ archived_before i rs = j.
Proof.
  revert j. induction rs as [|r rs IH]; intros j Hj; [cbn in Hj; lia |].
  rewrite filter_cons in Hj. destruct (archivable r) eqn:Ha.
  - destruct (decide (true = true)); [| congruence]. cbn [length] in Hj.
    destruct j as [|j].
    + exists O, r. split; [reflexivity |]. split; [exact Ha | reflexivity].
    + destruct (IH j) as (i & x & Hi & Hx & Hb); [lia |].
      exists (S i), x. split; [exact Hi |]. split; [exact Hx |].
      rewrite archived_before_cons, Ha, Hb. reflexivity.
  - destruct (decide (false = true)); [discriminate |].
    destruct (IH j Hj) as (i & x & Hi & Hx & Hb).
    exists (S i), x. split; [exact Hi |]. split; [exact Hx |].
    rewrite archived_before_cons, Ha, Hb. reflexivity.
Qed.

Lemma filter_all_iff {A} (P : A -> Prop) `{forall x, Decision (P x)}
    (l : list A) :
  length (filter P l) = length l <-> Forall P l.
Proof.
  induction l as [|x l IH]; [split; [constructor | reflexivity] |].
  rewrite filter_cons. pose proof (length_filter P l) as Hle.
  destruct (decide (P x)) as [Hx | Hx]; cbn [length].
  - split.
    + intros E. constructor; [exact Hx | apply IH; lia].
    + intros F. inversion F; subst. f_equal. apply IH. assumption.
  - split; [lia |]. intros F. inversion F; subst. contradiction.
Qed.

(** C5, as the code has it.  The links of a comment are fetched one after
    the other in the order of the document, from [link_num = 0] on, and
    [link_num] is increased only after a link has been archived.  So,
    however the loop ends (it returns, or an exception leaves it at a later
    link), the ordinal in the name of every file archived for the comment
    is the number of links of that comment archived before it: the files
    are numbered 0, 1, 2, ... in the order of the document without gaps,
    each from a link answered with a non-empty payload and status 200; such
    a link is archived whenever the loop went on past it or returned; and
    the ordinal is the index of the link in the comment if and only if all
    the links before it were archived. *)
Theorem link_ordinal_counts_archived (session : Session) (dir : Path)
    (cid : str) (urls : list str) (st : State World) :
  let out := download_links session dir cid 0 urls st in
  exists rs ws,
    requests (snd out) = requests st ++ rs
    /\ map fst rs `prefix_of` urls
    /\ written (snd out) = written st ++ ws
    /\ (forall j f, ws !! j = Some f ->
          exists i url body ct status,
            rs !! i = Some (url, Response body ct status)
            /\ archivable (url, Response body ct status) = true
            /\ archived_before i rs = j
            /\ f = (dir ++ [link_fname cid j (Some ct) url], body))
    /\ (forall i url body ct status,
          rs !! i = Some (url, Response body ct status) ->
          archivable (url, Response body ct status) = true ->
          (exists n', fst out = Ok n') \/ (S i < length rs)%nat ->
          ws !! archived_before i rs
          = Some (dir ++ [link_fname cid (archived_before i rs) (Some ct) url],
                  body))
    /\ (forall i, (i <= length rs)%nat ->
          archived_before i rs = i
          <-> Forall (fun r => archivable r = true) (take i rs))
    /\ (forall n', fst out = Ok n' -> map fst rs = urls /\ n' = length ws)
    /\ (forall comment others,
          comment_id comment = Some cid ->
          match commtext comment with
          | Some anchors => hrefs anchors
          | None => Some []
          end = Some urls ->
          for_comments session dir (comment :: others) st
          = (download_links session dir cid 0 urls;;
             for_comments session dir others) st).
Proof.
  intros out.
  destruct (download_links_account session dir cid urls 0 st)
    as (rs & ws & R & F & W & L & P & N).
  fold out in R, W, N.
  exists rs, ws. split; [exact R |]. split; [exact F |]. split; [exact W |].
  split.
  { intros j f Hj.
    assert (Hlt : (j < length (filter (fun r => archivable r = true) rs))%nat).
    { rewrite <- L. apply lookup_lt_Some in Hj. exact Hj. }
    destruct (nth_archived rs j Hlt) as (i & [url o] & Hi & Ha & Hb).
    destruct o as [body ct status | e]; [| discriminate Ha].
    exists i, url, body, ct, status.
    split; [exact Hi |]. split; [exact Ha |]. split; [exact Hb |].
    pose proof (P i url body ct status Hi Ha) as Hf.
    rewrite Hb in Hf. cbn [Nat.add] in Hf. congruence. }
  split.
  { intros i url body ct status Hi Ha _. exact (P i url body ct status Hi Ha). }
  split.
  { intros i Hi. unfold archived_before.
    rewrite <- (length_take_le rs i Hi) at 2. apply filter_all_iff. }
  split.
  { intros n' Hn'. destruct (N n' Hn') as [F' N']. split; assumption. }
  intros comment others Hcid Hurls. cbn [for_comments].
  rewrite Hcid, Hurls. reflexivity.
Qed.

(** ** The page of a story *)

Lemma parse_comments_no_table (c : YCrawler) (body : bytes) (it : Item)
    (session : Session) (st : State World) :
  table (BeautifulSoup body) = None ->
  parse_comments c (Some body) it session st = (Raise AttributeError, st).
Proof.
  intros Ht. unfold parse_comments.
  erewrite bind_ok by reflexivity. rewrite Ht. reflexivity.
Qed.

(** With a non-empty payload, whatever the status, the page is written
    under [root/id/] and the comments are processed. *)
Lemma parse_item_fetched (c : YCrawler) (it : Item) (session : Session)
    (st : State World) (id : str) (a : Anchor) (tl : list (option Anchor))
    (href : str) (body : bytes) (ct : str) (status : Z) (w' : World) :
  item_id it = Some id ->
  titlelines it = Some a :: tl ->
  a_href a = Some href ->
  (0 < sem st)%Z ->
  http_get session (site c ++ u "/item?id=" ++ id) None (world st)
    = (Response body ct status, w') ->
  body <> [] ->
  exists st_w : State World,
    written st_w
    = written st
      ++ [([root c; id;
            make_safe_filename unicode_isalnum (strip isspace (a_text a))],
           body)]
    /\ sem st_w = sem st
    /\ parse_item c it session st
       = match parse_comments c (Some body) it session st_w with
         | (Ok _, s) =>
             (Ok (Some (strip isspace (a_text a),
                        site c ++ u "/item?id=" ++ id)), s)
         | (Raise e, s) => (Raise e, s)
         | (Blocked, s) => (Blocked, s)
         end.
Proof.
  intros Hid Htl Hhref Hsem Hget Hbody.
  destruct (write_file_some
              [root c; id;
               make_safe_filename unicode_isalnum (strip isspace (a_text a))]
              body
              (add_log (INFO, MsgNews id (strip isspace (a_text a)) href)
                 (after_get (site c ++ u "/item?id=" ++ id)
                    (Response body ct status) w'
                    (add_log (INFO, MsgParsingItem
                                      (site c ++ u "/item?id=" ++ id)) st))))
    as (st_w & Ew & Hw & _ & Hs & _).
  exists st_w. split; [exact Hw |]. split.
  { rewrite Hs. cbn. lia. }
  unfold parse_item. rewrite Hid.
  erewrite bind_ok by reflexivity.
  erewrite bind_ok
    by (erewrite read_url_eq by (first [exact Hsem | exact Hget]);
        reflexivity).
  cbv beta iota.
  destruct body as [|b0 body]; [congruence |]. cbn [truthy negb].
  rewrite Htl, Hhref.
  erewrite bind_ok by reflexivity.
  erewrite bind_ok by exact Ew.
  unfold mbind at 1. unfold M_bind at 1.
  destruct (parse_comments c (Some (b0 :: body)) it session st_w)
    as [[[] | e |] s]; reflexivity.
Qed.

Lemma parse_item_titleline_error (c : YCrawler) (it : Item)
    (session : Session) (st : State World) (id : str) (body : bytes)
    (ct : str) (status : Z) (w' : World) (e : exn) :
  item_id it = Some id ->
  (0 < sem st)%Z ->
  http_get session (site c ++ u "/item?id=" ++ id) None (world st)
    = (Response body ct status, w') ->
  body <> [] ->
  titleline_error it = Some e ->
  fst (parse_item c it session st) = Raise e.
Proof.
  intros Hid Hsem Hget Hbody Hbad. unfold parse_item. rewrite Hid.
  erewrite bind_ok by reflexivity.
  erewrite bind_ok
    by (erewrite read_url_eq by (first [exact Hsem | exact Hget]);
        reflexivity).
  cbv beta iota. destruct body as [|b0 body]; [congruence |].
  cbn [truthy negb]. unfold titleline_error in Hbad.
  destruct (titlelines it) as [| [a |] tl].
  - injection Hbad as <-. reflexivity.
  - destruct (a_href a); [discriminate |].
    injection Hbad as <-. reflexivity.
  - injection Hbad as <-. reflexivity.
Qed.

Lemma titleline_usable (it : Item) :
  titleline_error it = None ->
  exists a tl href, titlelines it = Some a :: tl /\ a_href a = Some href.
Proof.
  unfold titleline_error. destruct (titlelines it) as [| [a |] tl];
    try discriminate.
  destruct (a_href a) as [href |] eqn:E; [| discriminate].
  intros _. exists a, tl, href. split; [reflexivity | exact E].
Qed.

(** C8, as the code has it.  When the page of a story is fetched with a
    non-empty payload (whatever the status) and [parse_item] does not
    raise, then the front-page entry has a first [titleline] element whose
    anchor carries an [href], and [parse_item] returns the pair made of the
    title and the URL of the page it fetched: the title is the stripped
    text of that anchor of the front-page entry, the URL is
    [site/item?id=<id>]; the [href] of the anchor is only logged.  This
    pair is stored in [parsed_news] under the id. *)
Theorem parse_item_returns_title_and_item_url (c : YCrawler) (it : Item)
    (session : Session) (st : State World) (id : str) (body : bytes)
    (ct : str) (status : Z) (w' : World)
    (Hid : item_id it = Some id)
    (Hsem : (0 < sem st)%Z)
    (Hget : http_get session (site c ++ u "/item?id=" ++ id) None (world st)
            = (Response body ct status, w'))
    (Hbody : body <> [])
    (Hnoraise : forall e, fst (parse_item c it session st) <> Raise e) :
  exists a tl href,
    titlelines it = Some a :: tl
    /\ a_href a = Some href
    /\ fst (parse_item c it session st)
       = Ok (Some (strip isspace (a_text a), site c ++ u "/item?id=" ++ id))
    /\ forall s, parsed_news s !! id = None ->
         st = add_dispatched id (add_examined id s) ->
         fst (news_step c session it s) = Ok tt
         /\ parsed_news (snd (news_step c session it s))
            = <[id := (strip isspace (a_text a),
                       site c ++ u "/item?id=" ++ id)]> (parsed_news s).
Proof.
  destruct (titleline_error it) as [e |] eqn:Hte.
  { exfalso. apply (Hnoraise e).
    exact (parse_item_titleline_error c it session st id body ct status w' e
             Hid Hsem Hget Hbody Hte). }
  destruct (titleline_usable it Hte) as (a & tl & href & Htl & Hhref).
  exists a, tl, href. split; [exact Htl |]. split; [exact Hhref |].
  destruct (parse_item_fetched c it session st id a tl href body ct status w'
              Hid Htl Hhref Hsem Hget Hbody) as (st_w & _ & Hs & E).
  assert (Hok : fst (parse_item c it session st)
                = Ok (Some (strip isspace (a_text a),
                            site c ++ u "/item?id=" ++ id))).
  { destruct (keeps_parse_comments c (Some body) it session st_w) as [_ NB].
    rewrite E in Hnoraise |- *.
    destruct (parse_comments c (Some body) it session st_w)
      as [[[] | e |] s]; cbn [fst] in *.
    - reflexivity.
    - exfalso. exact (Hnoraise e eq_refl).
    - exfalso. apply NB; [lia | reflexivity]. }
  split; [exact Hok |].
  intros s Habs Hst.
  rewrite (news_step_absent c session it id s Hid Habs), <- Hst.
  destruct (keeps_parse_item c it session st) as [(_ & Hp & _) _].
  destruct (parse_item c it session st) as [r s1]. cbn [fst snd] in *.
  subst r. cbn [fst snd set_parsed_news parsed_news].
  rewrite Hp, Hst. split; reflexivity.
Qed.

(** C9, what the code does.  A non-empty payload is archived under
    [root/id/] whatever the status.  When the payload has no table, as an
    error page has none, [bs.table.find] in [parse_comments] raises
    [AttributeError] after the file is written: the error leaves
    [parse_item] and the loop over the news, and the id is not stored in
    [parsed_news]. *)
Theorem error_page_without_table_raises (c : YCrawler) (it : Item)
    (session : Session) (st : State World) (id : str) (a : Anchor)
    (tl : list (option Anchor)) (href : str) (body : bytes) (ct : str)
    (status : Z) (w' : World)
    (Hid : item_id it = Some id)
    (Htl : titlelines it = Some a :: tl)
    (Hhref : a_href a = Some href)
    (Hsem : (0 < sem st)%Z)
    (Hget : http_get session (site c ++ u "/item?id=" ++ id) None (world st)
            = (Response body ct status, w'))
    (Hbody : body <> [])
    (Htable : table (BeautifulSoup body) = None) :
  fst (parse_item c it session st) = Raise AttributeError
  /\ written (snd (parse_item c it session st))
     = written st
       ++ [([root c; id;
             make_safe_filename unicode_isalnum (strip isspace (a_text a))],
            body)]
  /\ forall s, parsed_news s !! id = None ->
       st = add_dispatched id (add_examined id s) ->
       fst (news_step c session it s) = Raise AttributeError
       /\ parsed_news (snd (news_step c session it s)) = parsed_news s
       /\ forall rest,
            fst (for_news c session (it :: rest) s) = Raise AttributeError.
Proof.
  destruct (parse_item_fetched c it session st id a tl href body ct status w'
              Hid Htl Hhref Hsem Hget Hbody) as (st_w & Hw & _ & E).
  rewrite (parse_comments_no_table c body it session st_w Htable) in E.
  rewrite E. cbn [fst snd]. split; [reflexivity |]. split; [exact Hw |].
  intros s Habs Hst.
  pose proof (news_step_absent c session it id s Hid Habs) as Estep.
  rewrite <- Hst, E in Estep.
  destruct (keeps_parse_item c it session st) as [(_ & Hp & _) _].
  rewrite E in Hp. cbn [snd] in Hp.
  rewrite Estep. cbn [fst snd]. split; [reflexivity |].
  split; [rewrite Hp, Hst; reflexivity |].
  intros rest. cbn [for_news]. rewrite Estep. reflexivity.
Qed.

End CrawlerFacts.

(** * The theorems at work on the demo world *)

Lemma seen_never_redispatched_witness :
  u "123" ∈ dom (parsed_news Demo.seen123)
  /\ (forall session it, item_id it = Some (u "123") ->
        news_step Demo.crawler session it Demo.seen123
        = (Ok tt, add_log (DEBUG, MsgAlreadyParsed (u "123"))
                    (add_examined (u "123") Demo.seen123)))
  /\ (forall session items,
        let st' := snd (for_news Demo.crawler session items Demo.seen123) in
        u "123" ∈ dom (parsed_news st')
        /\ exists l, dispatched st' = dispatched Demo.seen123 ++ l
                     /\ u "123" ∉ l)
  /\ (forall cycles,
        let st' := snd (run_loop Demo.crawler cycles Demo.seen123) in
        u "123" ∈ dom (parsed_news st')
        /\ exists l, dispatched st' = dispatched Demo.seen123 ++ l
                     /\ u "123" ∉ l).
Proof.
  assert (H : u "123" ∈ dom (parsed_news Demo.seen123)).
  { apply elem_of_dom. eexists. vm_compute. reflexivity. }
  split; [exact H |].
  exact (seen_never_redispatched Demo.crawler (u "123") Demo.seen123 H).
Defined.

(** C3 as stated fails: a refused connection leaves [read_url] as an
    exception, where the claim has a status and an empty payload. *)
Lemma connection_error_leaves_read_url :
  fst (read_url (u "http://down/") ClientSession None Demo.start)
  = Raise ClientError.
Proof. vm_compute. reflexivity. Qed.

Lemma transport_error_escapes_witness :
  (0 < sem Demo.start)%Z
  /\ http_get ClientSession (u "http://down/") None (world Demo.start)
     = (Failure ClientError, 1%nat)
  /\ ClientError <> TimeoutError
  /\ fst (read_url (u "http://down/") ClientSession None Demo.start)
     = Raise ClientError
  /\ (forall dir comm_id link_num rest,
        fst (download_links ClientSession dir comm_id link_num
               (u "http://down/" :: rest) Demo.start)
        = Raise ClientError).
Proof.
  assert (Hsem : (0 < sem Demo.start)%Z) by (vm_compute; reflexivity).
  assert (Hfail : http_get ClientSession (u "http://down/") None
                    (world Demo.start) = (Failure ClientError, 1%nat))
    by (vm_compute; reflexivity).
  assert (Hnot : ClientError <> TimeoutError) by discriminate.
  split; [exact Hsem |]. split; [exact Hfail |]. split; [exact Hnot |].
  destruct (transport_error_escapes ClientSession (u "http://down/") None
              Demo.start 1%nat ClientError Hsem Hfail Hnot) as [Hr Hlinks].
  split; [exact Hr | exact (Hlinks eq_refl)].
Defined.

Lemma timeout_is_skipped_witness :
  let st_t := snd (read_url (u "http://x/slow") ClientSession None
                     Demo.start) in
  fst (read_url (u "http://x/slow") ClientSession None Demo.start)
  = Ok (None, None, Some 408%Z)
  /\ requests st_t = [(u "http://x/slow", Failure TimeoutError)]
  /\ written st_t = []
  /\ forall dir comm_id link_num rest,
       download_links ClientSession dir comm_id link_num
         (u "http://x/slow" :: rest) Demo.start
       = download_links ClientSession dir comm_id link_num rest
           (add_log (ERROR, MsgCommentLinkError (Some 408%Z)
                              (u "http://x/slow")) st_t).
Proof.
  assert (Hsem : (0 < sem Demo.start)%Z) by (vm_compute; reflexivity).
  assert (Ht : http_get ClientSession (u "http://x/slow") None
                 (world Demo.start) = (Failure TimeoutError, 1%nat))
    by (vm_compute; reflexivity).
  destruct (timeout_is_skipped Demo.crawler ClientSession (u "http://x/slow")
              None Demo.start 1%nat Hsem Ht)
    as (_ & Hr & Hreq & Hw & _ & _ & Hlinks).
  split; [exact Hr |]. split; [exact Hreq |]. split; [exact Hw |].
  exact (Hlinks eq_refl).
Defined.

(** C5 as stated fails: the first link of the comment is gone (404), and
    the second link, of index 1 in the comment, is archived as [c1_0.html],
    not as [c1_1.html]. *)
Lemma second_link_archived_with_ordinal_0 :
  Demo.two_links !! 1%nat = Some (u "http://x/b")
  /\ written (snd (download_links ClientSession Demo.comments_dir (u "c1") 0
                     Demo.two_links Demo.start))
     = [(Demo.comments_dir ++ [u "c1_0.html"], Demo.page_b)]
  /\ u "c1_0.html" <> u "c1_1.html".
Proof.
  split; [reflexivity |]. split; [vm_compute; reflexivity |].
  vm_compute. discriminate.
Qed.

Lemma link_ordinal_counts_archived_witness :
  let out := download_links ClientSession Demo.comments_dir (u "c1") 0
               [u "http://x/b"; u "http://down/"] Demo.start in
  fst out = Raise ClientError
  /\ written (snd out)
     = [(Demo.comments_dir ++ [u "c1_0.html"], Demo.page_b)]
  /\ exists rs ws,
       written (snd out) = written Demo.start ++ ws
       /\ map fst rs `prefix_of` [u "http://x/b"; u "http://down/"]
       /\ forall j f, ws !! j = Some f ->
            exists i url body ct status,
              rs !! i = Some (url, Response body ct status)
              /\ archivable (url, Response body ct status) = true
              /\ archived_before i rs = j
              /\ f = (Demo.comments_dir
                        ++ [link_fname (u "c1") j (Some ct) url], body).
Proof.
  intros out.
  split; [vm_compute; reflexivity |]. split; [vm_compute; reflexivity |].
  destruct (link_ordinal_counts_archived ClientSession Demo.comments_dir
              (u "c1") [u "http://x/b"; u "http://down/"] Demo.start)
    as (rs & ws & _ & F & W & Hfiles & _).
  exists rs, ws. split; [exact W |]. split; [exact F | exact Hfiles].
Defined.



(** C8 as stated fails: the URL of the returned pair is the address of the
    story's page on the site, not the [href] of the [titleline] anchor. *)
Lemma parse_item_returns_the_item_url :
  titlelines Demo.item123
  = [Some {| a_text := u " Hello World "; a_href := Some (u "http://x/a") |}]
  /\ fst (parse_item Demo.crawler Demo.item123 ClientSession Demo.start)
     = Ok (Some (u "Hello World", u "https://news.ycombinator.com/item?id=123"))
  /\ u "https://news.ycombinator.com/item?id=123" <> u "http://x/a".
Proof.
  split; [reflexivity |]. split; [vm_compute; reflexivity |].
  vm_compute. discriminate.
Qed.

Lemma parse_item_returns_title_and_item_url_witness :
  exists a tl href,
    titlelines Demo.item123 = Some a :: tl
    /\ a_href a = Some href
    /\ fst (parse_item Demo.crawler Demo.item123 ClientSession
              (Demo.at_call "123"))
       = Ok (Some (strip isspace (a_text a),
                   site Demo.crawler ++ u "/item?id=" ++ u "123"))
    /\ forall s, parsed_news s !! u "123" = None ->
         Demo.at_call "123"
         = add_dispatched (u "123") (add_examined (u "123") s) ->
         fst (news_step Demo.crawler ClientSession Demo.item123 s) = Ok tt
         /\ parsed_news (snd (news_step Demo.crawler ClientSession
                                Demo.item123 s))
            = <[u "123" := (strip isspace (a_text a),
                            site Demo.crawler ++ u "/item?id=" ++ u "123")]>
                (parsed_news s).
Proof.
  apply (parse_item_returns_title_and_item_url Demo.crawler Demo.item123
           ClientSession (Demo.at_call "123") (u "123")
           Demo.story123 (u "text/html") 200%Z 1%nat).
  - reflexivity.
  - vm_compute. reflexivity.
  - vm_compute. reflexivity.
  - vm_compute. discriminate.
  - intros e. vm_compute. discriminate.
Defined.

Lemma error_page_without_table_raises_witness :
  http_get ClientSession (site Demo.crawler ++ u "/item?id=" ++ u "404") None
    (world (Demo.at_call "404"))
  = (Response Demo.not_found (u "text/plain") 404%Z, 1%nat)
  /\ table (BeautifulSoup Demo.not_found) = None
  /\ fst (parse_item Demo.crawler Demo.item404 ClientSession
            (Demo.at_call "404"))
     = Raise AttributeError
  /\ written (snd (parse_item Demo.crawler Demo.item404 ClientSession
                     (Demo.at_call "404")))
     = written (Demo.at_call "404")
       ++ [([root Demo.crawler; u "404";
             make_safe_filename unicode_isalnum (strip isspace (u "Lost"))],
            Demo.not_found)]
  /\ (forall s, parsed_news s !! u "404" = None ->
        Demo.at_call "404"
        = add_dispatched (u "404") (add_examined (u "404") s) ->
        fst (news_step Demo.crawler ClientSession Demo.item404 s)
        = Raise AttributeError
        /\ parsed_news (snd (news_step Demo.crawler ClientSession
                               Demo.item404 s)) = parsed_news s
        /\ forall rest,
             fst (for_news Demo.crawler ClientSession (Demo.item404 :: rest) s)
             = Raise AttributeError).
Proof.
  assert (Hget : http_get ClientSession
                   (site Demo.crawler ++ u "/item?id=" ++ u "404") None
                   (world (Demo.at_call "404"))
                 = (Response Demo.not_found (u "text/plain") 404%Z, 1%nat))
    by (vm_compute; reflexivity).
  assert (Htable : table (BeautifulSoup Demo.not_found) = None)
    by (vm_compute; reflexivity).
  split; [exact Hget |]. split; [exact Htable |].
  apply (error_page_without_table_raises Demo.crawler Demo.item404
           ClientSession (Demo.at_call "404") (u "404")
           {| a_text := u "Lost"; a_href := Some (u "http://x/lost") |}
           [] (u "http://x/lost") Demo.not_found (u "text/plain") 404%Z
           1%nat).
  - reflexivity.
  - reflexivity.
  - reflexivity.
  - vm_compute. reflexivity.
  - exact Hget.
  - vm_compute. discriminate.
  - exact Htable.
Defined.

Lemma duplicate_dispatched_once_witness :
  let st2 := snd (news_step Demo.crawler ClientSession Demo.item123
                    Demo.start) in
  (u "123" ∉ dom (parsed_news Demo.start))
  /\ (u "123" ∈ dom (parsed_news st2))
  /\ exists l,
       dispatched (snd (for_news Demo.crawler ClientSession
                          ([] ++ Demo.item123 :: [Demo.item123]) Demo.start))
       = dispatched Demo.start ++ l
       /\ occurrences (u "123") l = 1%nat.
Proof.
  intros st2.
  assert (Hd : u "123" ∉ dom (parsed_news Demo.start)).
  { intros H. apply elem_of_dom in H. destruct H as [x Hx].
    vm_compute in Hx. discriminate. }
  assert (Hs : u "123" ∈ dom (parsed_news st2)).
  { apply elem_of_dom. eexists. vm_compute. reflexivity. }
  split; [exact Hd |]. split; [exact Hs |].
  apply (duplicate_dispatched_once Demo.crawler ClientSession []
           [Demo.item123] Demo.item123 (u "123") Demo.start Demo.start st2).
  - reflexivity.
  - intros x Hx. apply elem_of_nil in Hx. contradiction.
  - reflexivity.
  - exact Hd.
  - vm_compute. reflexivity.
  - exact Hs.
Defined.

(** * Further properties *)

(** ** File names *)

Lemma lstrip_all (p : N -> bool) (s : str) :
  Forall (fun c => p c = true) s -> lstrip p s = [].
Proof.
  induction 1 as [|c s Hc _ IH]; [reflexivity |].
  cbn [lstrip]. rewrite Hc. exact IH.
Qed.

Lemma strip_length (p : N -> bool) (s : str) :
  (length (strip p s) <= length s)%nat.
Proof.
  destruct (strip_split p s) as (pre & post & E & _).
  rewrite E at 2. rewrite !length_app. lia.
Qed.

Lemma strip_elem (p : N -> bool) (s : str) (c : N) :
  c ∈ strip p s -> c ∈ s.
Proof.
  destruct (strip_split p s) as (pre & post & E & _).
  intros H. rewrite E, !elem_of_app. auto.
Qed.

(** X1.  The name made from a title is one path segment: it holds no [/] and no
    NUL, whatever the title, and is at most five characters longer than the
    title. *)
Theorem make_safe_filename_is_segment (ua : N -> bool) (text : str) :
  (47 ∉ make_safe_filename ua text)
  /\ (0 ∉ make_safe_filename ua text)
  /\ (length (make_safe_filename ua text) <= length text + 5)%nat.
Proof.
  assert (Hstem : forall c,
            c ∈ strip (in_chars (u "_ ")) (map (safe_char ua) text) ->
            isalnum ua c = true \/ isspace c = true \/ c = underscore).
  { intros c Hc. apply strip_elem in Hc.
    apply list_elem_of_fmap in Hc. destruct Hc as [c0 [-> _]].
    apply safe_char_class. }
  assert (Hno : forall c, isalnum ua c = false -> isspace c = false ->
            c <> underscore -> c ∉ u ".html" ->
            c ∉ make_safe_filename ua text).
  { intros c Ha Hs Hu Hsuf Hin. unfold make_safe_filename in Hin.
    cbv zeta in Hin. apply elem_of_app in Hin. destruct Hin as [Hin | Hin].
    - destruct (Hstem c Hin) as [H | [H | H]]; congruence.
    - exact (Hsuf Hin). }
  split; [| split].
  - apply Hno; try reflexivity; [discriminate |].
    intros H. vm_compute in H. repeat (apply elem_of_cons in H as [H | H];
      [discriminate |]). apply elem_of_nil in H. exact H.
  - apply Hno; try reflexivity; [discriminate |].
    intros H. vm_compute in H. repeat (apply elem_of_cons in H as [H | H];
      [discriminate |]). apply elem_of_nil in H. exact H.
  - unfold make_safe_filename. cbv zeta. rewrite length_app.
    pose proof (strip_length (in_chars (u "_ "))
                  (map (safe_char ua) text)) as L.
    rewrite length_map in L. change (length (u ".html")) with 5%nat. lia.
Qed.

(** X2.  A title without any letter or digit, made of punctuation, underscores
    and spaces only (the empty title too), gives the bare name [.html]:
    such titles all share one file name. *)
Theorem make_safe_filename_blank (ua : N -> bool) (text : str)
    (Hblank : Forall (fun c => c = space
                               \/ (isalnum ua c = false /\ isspace c = false))
                     text) :
  make_safe_filename ua text = u ".html".
Proof.
  unfold make_safe_filename. cbv zeta.
  assert (H : Forall (fun c => in_chars (u "_ ") c = true)
                (map (safe_char ua) text)).
  { apply Forall_fmap. eapply Forall_impl; [exact Hblank |].
    intros c [-> | [Ha Hs]].
    - vm_compute. reflexivity.
    - apply in_chars_underscore_space. left.
      unfold safe_char. rewrite Ha, Hs. reflexivity. }
  unfold strip. rewrite (lstrip_all _ _ H). reflexivity.
Qed.

Lemma make_safe_filename_blank_witness :
  make_safe_filename (fun _ => false) (u "?! _ /") = u ".html".
Proof.
  apply make_safe_filename_blank.
  change (u "?! _ /") with [63; 33; 32; 95; 32; 47].
  repeat (apply Forall_cons_2;
          [first [left; reflexivity | right; split; reflexivity] |]).
  apply Forall_nil_2.
Defined.

(** X3.  [news[:k]] for any integer [k]: always a prefix of the list, of length
    [min(k, N)] for a count and [max(0, N + k)] for a negative [k], which
    drops the last [-k] entries. *)
Theorem slice_to_any_bound {A} (l : list A) (k : Z) :
  slice_to l k `prefix_of` l
  /\ Z.of_nat (length (slice_to l k))
     = if (k <? 0)%Z then Z.max 0 (Z.of_nat (length l) + k)
       else Z.min k (Z.of_nat (length l)).
Proof.
  unfold slice_to. destruct (k <? 0)%Z eqn:E.
  - apply Z.ltb_lt in E. split.
    + eexists. symmetry. apply take_drop.
    + rewrite length_take. lia.
  - apply Z.ltb_ge in E. split.
    + eexists. symmetry. apply take_drop.
    + rewrite length_take. lia.
Qed.

Lemma digits_of_uint (d : Decimal.uint) :
  Forall (fun c => is_digit c = true) (u (NilEmpty.string_of_uint d)).
Proof.
  induction d; cbn [NilEmpty.string_of_uint]; unfold u in *;
    cbn [list_ascii_of_string map]; constructor; auto.
Qed.

Lemma split_on_nonempty (sep : N) (s : str) : split_on sep s <> [].
Proof.
  destruct s as [|c s]; cbn [split_on]; [discriminate |].
  destruct (split_on sep s); [discriminate |].
  destruct (c =? sep); discriminate.
Qed.

Lemma split_on_no_sep (sep : N) (s : str) :
  Forall (fun w => sep ∉ w) (split_on sep s).
Proof.
  induction s as [|c s IH]; cbn [split_on].
  - constructor; [apply not_elem_of_nil | constructor].
  - pose proof (split_on_nonempty sep s) as Hne.
    destruct (split_on sep s) as [|w ws].
    + congruence.
    + inversion IH as [|? ? Hw Hws]; subst.
      destruct (c =? sep) eqn:E.
      * constructor; [apply not_elem_of_nil | exact IH].
      * constructor; [| exact Hws].
        apply N.eqb_neq in E. rewrite not_elem_of_cons. split; congruence.
Qed.

Lemma last_default_Forall {A} (P : A -> Prop) (l : list A) (d : A) :
  P d -> Forall P l -> P (List.last l d).
Proof.
  intros Hd H. induction H as [|x l Hx Hl IH]; [exact Hd |].
  destruct l; [exact Hx | exact IH].
Qed.

Lemma path_name_no_slash (text : str) : 47 ∉ path_name text.
Proof.
  unfold path_name. apply last_default_Forall; [apply not_elem_of_nil |].
  apply Forall_forall. intros w Hw. apply list_elem_of_filter in Hw.
  destruct Hw as [_ Hw].
  pose proof (split_on_no_sep 47 text) as H. rewrite Forall_forall in H.
  exact (H w Hw).
Qed.

Lemma before_first_elem (sep : N) (s : str) (c : N) :
  c ∈ before_first sep s -> c ∈ s /\ c <> sep.
Proof.
  induction s as [|a s IH]; cbn [before_first]; intros H.
  - apply elem_of_nil in H. contradiction.
  - destruct (a =? sep) eqn:E; [apply elem_of_nil in H; contradiction |].
    apply N.eqb_neq in E. apply elem_of_cons in H. destruct H as [-> | H].
    + split; [apply elem_of_cons; auto | exact E].
    + destruct (IH H) as [H1 H2]. split; [apply elem_of_cons; auto | exact H2].
Qed.

(** X4.  The name under which a comment link is archived is the comment id, an
    underscore, the ordinal in decimal digits, and a suffix that holds no
    [/]: [.html], or an underscore and the last segment of the address up
    to its query, which holds no [?] either.  So the name is one path
    segment whenever the comment id is one. *)
Theorem link_fname_is_segment (comm_id : str) (link_num : nat)
    (content_type : option str) (comm_url : str) :
  exists suffix,
    link_fname comm_id link_num content_type comm_url
    = comm_id ++ u "_" ++ str_of_nat link_num ++ suffix
    /\ Forall (fun c => is_digit c = true) (str_of_nat link_num)
    /\ (47 ∉ suffix)
    /\ (is_html content_type = false -> 63 ∉ suffix)
    /\ (47 ∉ comm_id ->
        47 ∉ link_fname comm_id link_num content_type comm_url).
Proof.
  assert (Hd : Forall (fun c => is_digit c = true) (str_of_nat link_num))
    by apply digits_of_uint.
  assert (Hsuf : exists suffix,
            link_fname comm_id link_num content_type comm_url
            = comm_id ++ u "_" ++ str_of_nat link_num ++ suffix
            /\ (47 ∉ suffix)
            /\ (is_html content_type = false -> 63 ∉ suffix)).
  { unfold link_fname. destruct (is_html content_type).
    - exists (u ".html"). split; [reflexivity |]. split; [| discriminate].
      intros H. vm_compute in H.
      repeat (apply elem_of_cons in H as [H | H]; [discriminate |]).
      apply elem_of_nil in H. exact H.
    - exists (u "_" ++ before_first 63 (path_name comm_url)).
      split; [reflexivity |]. split.
      + intros H. apply elem_of_app in H. destruct H as [H | H].
        * vm_compute in H.
          repeat (apply elem_of_cons in H as [H | H]; [discriminate |]).
          apply elem_of_nil in H. exact H.
        * apply before_first_elem in H. destruct H as [H _].
          exact (path_name_no_slash comm_url H).
      + intros _ H. apply elem_of_app in H. destruct H as [H | H].
        * vm_compute in H.
          repeat (apply elem_of_cons in H as [H | H]; [discriminate |]).
          apply elem_of_nil in H. exact H.
        * apply before_first_elem in H. destruct H as [_ H]. congruence. }
  destruct Hsuf as (suffix & E & H47 & H63).
  exists suffix. split; [exact E |]. split; [exact Hd |].
  split; [exact H47 |]. split; [exact H63 |].
  intros Hcid. rewrite E. rewrite !elem_of_app. intros [H | [H | [H | H]]].
  - exact (Hcid H).
  - vm_compute in H.
    repeat (apply elem_of_cons in H as [H | H]; [discriminate |]).
    apply elem_of_nil in H. exact H.
  - rewrite Forall_forall in Hd. specialize (Hd 47 H). discriminate.
  - exact (H47 H).
Qed.

(** ** The semaphore along a run *)

Section RunFacts.

Context `{env : Env World}.

(** X5.  With a free semaphore a call of [read_url] makes exactly one GET, also
    when the GET ends by an exception that leaves the call, and it always
    gives the permit back; it writes no file and leaves the dictionary
    alone. *)
Theorem read_url_one_get_and_release (url : str) (session : Session)
    (proxy : option str) (st : State World)
    (Hsem : (0 < sem st)%Z) :
  let st' := snd (read_url url session proxy st) in
  sem st' = sem st
  /\ (exists o,
        requests st' = requests st ++ [(url, o)]
        /\ fst (read_url url session proxy st) = returned o)
  /\ written st' = written st
  /\ dirs st' = dirs st
  /\ parsed_news st' = parsed_news st.
Proof.
  intros st'. subst st'.
  destruct (http_get session url proxy (world st)) as [o w] eqn:Hget.
  rewrite (read_url_eq url session proxy st o w Hsem Hget). cbn [fst snd].
  destruct (after_get_books url o w st) as (Hr & Hw & _ & Hs & Hd).
  split; [rewrite Hs; lia |]. split; [exists o; auto |].
  split; [exact Hw |]. split; [exact Hd |].
  unfold after_get. destruct o as [body ct status | e]; [| destruct e];
    reflexivity.
Qed.

Lemma keeps_balanced {A} (m : M World A) : keeps m -> balanced m.
Proof.
  intros H st. destruct (H st) as [(Hs & _) NB]. split; assumption.
Qed.

Lemma balanced_bind {A B} (m : M World A) (f : A -> M World B) :
  balanced m -> (forall a, balanced (f a)) -> balanced (m ≫= f).
Proof.
  intros Hm Hf st. destruct (Hm st) as [Hs NB].
  unfold mbind, M_bind. destruct (m st) as [[a | e |] st1]; cbn [fst snd] in *.
  - destruct (Hf a st1) as [Hs' NB']. split; [congruence |].
    intros H. apply NB'. rewrite Hs. exact H.
  - split; [exact Hs | discriminate].
  - split; [exact Hs |]. intros H _. exact (NB H eq_refl).
Qed.

Lemma balanced_news_step (c : YCrawler) (session : Session) (it : Item) :
  balanced (news_step c session it).
Proof.
  unfold news_step. destruct (item_id it) as [id |];
    [| apply keeps_balanced, keeps_raise].
  apply balanced_bind; [intros st; split; [reflexivity | discriminate] |].
  intros _. apply balanced_bind;
    [intros st; split; [reflexivity | discriminate] |].
  intros seen. destruct (seen !! id);
    [apply keeps_balanced, keeps_logging |].
  apply balanced_bind; [intros st; split; [reflexivity | discriminate] |].
  intros _. apply balanced_bind; [apply keeps_balanced, keeps_parse_item |].
  intros [tpl |]; [| apply keeps_balanced, keeps_ret].
  intros st. split; [reflexivity | discriminate].
Qed.

Lemma balanced_for_news (c : YCrawler) (session : Session)
    (items : list Item) : balanced (for_news c session items).
Proof.
  induction items as [|it items IH]; intros st; cbn [for_news].
  - split; [reflexivity | discriminate].
  - destruct (balanced_news_step c session it st) as [Hs NB].
    destruct (news_step c session it st) as [[[] | e |] st1];
      cbn [fst snd] in *.
    + destruct (IH st1) as [Hs' NB']. split; [congruence |].
      intros H. apply NB'. rewrite Hs. exact H.
    + destruct e; (split; [exact Hs | discriminate]).
    + split; [exact Hs |]. intros H _. exact (NB H eq_refl).
Qed.

Lemma balanced_cycle (c : YCrawler) : balanced (cycle c).
Proof.
  unfold cycle. apply balanced_bind;
    [apply keeps_balanced, keeps_parse_main_page |].
  intros [[| it items] |].
  - apply keeps_balanced, keeps_bind;
      [apply keeps_logging | intros _; apply keeps_ret].
  - apply balanced_bind; [apply balanced_for_news | intros _].
    apply keeps_balanced, keeps_bind;
      [apply keeps_logging | intros _; apply keeps_ret].
  - apply keeps_balanced, keeps_bind;
      [apply keeps_logging | intros _; apply keeps_ret].
Qed.

Lemma balanced_run_loop (c : YCrawler) (cycles : nat) :
  balanced (run_loop c cycles).
Proof.
  induction cycles as [|n IH]; cbn [run_loop].
  - apply keeps_balanced, keeps_ret.
  - apply balanced_bind; [apply balanced_cycle |]. intros stop.
    destruct stop; [apply keeps_balanced, keeps_ret |].
    destruct (run_once c); [apply keeps_balanced, keeps_ret |].
    apply balanced_bind; [apply keeps_balanced, keeps_logging | intros _].
    apply balanced_bind; [apply keeps_balanced, keeps_logging | intros _].
    exact IH.
Qed.

Lemma balanced_run (c : YCrawler) (cycles : nat) : balanced (run c cycles).
Proof.
  unfold run.
  apply balanced_bind; [apply keeps_balanced, keeps_logging | intros _].
  apply balanced_bind; [intros st; split; [reflexivity | discriminate] |].
  intros _.
  apply balanced_bind; [apply keeps_balanced, keeps_logging | intros _].
  apply balanced_run_loop.
Qed.

(** X6.  However a run ends, by a return, by an exception of any kind or out of
    cycles, the semaphore holds as many permits as at the start: every
    acquire of the crawl was matched by a release. *)
Theorem run_releases_every_permit (c : YCrawler) (cycles : nat)
    (st : State World) :
  sem (snd (run c cycles st)) = sem st.
Proof. apply balanced_run. Qed.

(** X7.  Started with at least one permit, the crawl as written never waits
    for ever on its semaphore. *)
Theorem run_never_waits_forever (c : YCrawler) (cycles : nat)
    (st : State World) (Hsem : (0 < sem st)%Z) :
  fst (run c cycles st) <> Blocked.
Proof. apply balanced_run. exact Hsem. Qed.

(** X8.  With no permit at all ([max_tasks=0] is accepted by the semaphore), the
    run waits for ever at its first fetch: no GET is made and no file is
    written. *)
Theorem run_without_permit_hangs (c : YCrawler) (cycles : nat)
    (st : State World) (Hzero : (sem st <= 0)%Z) :
  fst (run c (S cycles) st) = Blocked
  /\ requests (snd (run c (S cycles) st)) = requests st
  /\ written (snd (run c (S cycles) st)) = written st.
Proof.
  assert (E : exists st1 : State World,
            run c (S cycles) st = (Blocked, st1)
            /\ requests st1 = requests st /\ written st1 = written st).
  { eexists. split.
    - unfold run. do 3 (erewrite bind_ok by reflexivity).
      cbn [run_loop]. erewrite bind_blocked; [reflexivity |].
      unfold cycle. erewrite bind_blocked; [reflexivity |].
      unfold parse_main_page. erewrite bind_blocked; [reflexivity |].
      apply read_url_blocked. exact Hzero.
    - split; reflexivity. }
  destruct E as (st1 & -> & Hr & Hw). auto.
Qed.

End RunFacts.

Lemma read_url_one_get_and_release_witness :
  let st' := snd (read_url (u "http://down/") ClientSession None
                    Demo.start) in
  sem st' = sem Demo.start
  /\ (exists o,
        requests st' = requests Demo.start ++ [(u "http://down/", o)]
        /\ fst (read_url (u "http://down/") ClientSession None Demo.start)
           = returned o)
  /\ written st' = written Demo.start
  /\ dirs st' = dirs Demo.start
  /\ parsed_news st' = parsed_news Demo.start.
Proof.
  apply (read_url_one_get_and_release (u "http://down/") ClientSession None
           Demo.start).
  vm_compute. reflexivity.
Defined.

Lemma run_never_waits_forever_witness :
  fst (run Demo.crawler 3 Demo.start) <> Blocked.
Proof.
  apply (run_never_waits_forever Demo.crawler 3 Demo.start).
  vm_compute. reflexivity.
Defined.

Lemma run_without_permit_hangs_witness :
  fst (run Script.poller 1 (Script.closed [Script.ok Demo.front])) = Blocked
  /\ requests (snd (run Script.poller 1 (Script.closed [Script.ok Demo.front])))
     = []
  /\ written (snd (run Script.poller 1 (Script.closed [Script.ok Demo.front])))
     = [].
Proof.
  apply (run_without_permit_hangs Script.poller 0
           (Script.closed [Script.ok Demo.front])).
  vm_compute. discriminate.
Defined.

(** ** Polling the front page *)

Section PollingFacts.

Context `{env : Env World}.

Lemma parse_main_page_failed (c : YCrawler) (session : Session)
    (st : State World) (o : outcome) (w : World) :
  (0 < sem st)%Z ->
  http_get session (site c) None (world st) = (o, w) ->
  archivable (site c, o) = false ->
  (forall e, returned o <> Raise e) ->
  exists st1 : State World,
    parse_main_page c session st = (Ok None, st1)
    /\ requests st1 = requests st ++ [(site c, o)]
    /\ written st1 = written st
    /\ dispatched st1 = dispatched st
    /\ parsed_news st1 = parsed_news st.
Proof.
  intros Hsem Hget Hbad Hret.
  destruct (after_get_books (site c) o w st) as (Hr & Hw & _).
  assert (Hd : dispatched (after_get (site c) o w st) = dispatched st
               /\ parsed_news (after_get (site c) o w st) = parsed_news st).
  { unfold after_get. destruct o as [? ? ? | e]; [| destruct e];
      split; reflexivity. }
  destruct Hd as [Hd Hp].
  unfold parse_main_page.
  destruct o as [body ct status | e].
  - erewrite bind_ok
      by (erewrite read_url_eq by (first [exact Hsem | exact Hget]);
          reflexivity).
    cbv beta iota. rewrite (archivable_condition (site c) body ct status).
    rewrite Hbad. cbn [negb].
    erewrite bind_ok by reflexivity.
    eexists. split; [reflexivity |].
    split; [exact Hr |]. split; [exact Hw |]. split; [exact Hd | exact Hp].
  - destruct e; try (exfalso; exact (Hret _ eq_refl)).
    erewrite bind_ok
      by (erewrite read_url_eq by (first [exact Hsem | exact Hget]);
          reflexivity).
    cbv beta iota. cbn [truthy negb orb].
    erewrite bind_ok by reflexivity.
    eexists. split; [reflexivity |].
    split; [exact Hr |]. split; [exact Hw |]. split; [exact Hd | exact Hp].
Qed.

Lemma parse_main_page_fetched (c : YCrawler) (session : Session)
    (st : State World) (body : bytes) (ct : str) (w : World) :
  (0 < sem st)%Z ->
  http_get session (site c) None (world st) = (Response body ct 200, w) ->
  body <> [] ->
  parse_main_page c session st
  = match table (BeautifulSoup body) with
    | Some t =>
        (Ok (Some (athing t)), after_get (site c) (Response body ct 200) w st)
    | None =>
        (Raise AttributeError, after_get (site c) (Response body ct 200) w st)
    end.
Proof.
  intros Hsem Hget Hbody. unfold parse_main_page.
  erewrite bind_ok
    by (erewrite read_url_eq by (first [exact Hsem | exact Hget]);
        reflexivity).
  cbv beta iota. destruct body as [|b0 body]; [congruence |].
  cbn [truthy negb orb status_is Z.eqb Pos.eqb].
  erewrite bind_ok by reflexivity.
  destruct (table (BeautifulSoup (b0 :: body))); reflexivity.
Qed.

(** X9.  When the front page cannot be used, because the GET timed out, the
    payload is empty or the status is not 200, the run ends there: [run]'s
    loop returns after that one GET, also in continuous mode, with the
    record 'No news found' last in the log; no story is handed to
    [parse_item] and no file is written. *)
Theorem front_page_failure_ends_run (c : YCrawler) (cycles : nat)
    (st : State World) (o : outcome) (w : World)
    (Hsem : (0 < sem st)%Z)
    (Hget : http_get ClientSession (site c) None (world st) = (o, w))
    (Hbad : archivable (site c, o) = false)
    (Hret : forall e, returned o <> Raise e) :
  let st' := snd (run_loop c (S cycles) st) in
  fst (run_loop c (S cycles) st) = Ok Returned
  /\ requests st' = requests st ++ [(site c, o)]
  /\ written st' = written st
  /\ dispatched st' = dispatched st
  /\ last (log st') = Some (ERROR, MsgNoNews).
Proof.
  destruct (parse_main_page_failed c ClientSession st o w Hsem Hget Hbad Hret)
    as (st1 & E & Hr & Hw & Hd & _).
  assert (R : run_loop c (S cycles) st
              = (Ok Returned, add_log (ERROR, MsgNoNews) st1)).
  { assert (C : cycle c st = (Ok true, add_log (ERROR, MsgNoNews) st1)).
    { unfold cycle. erewrite bind_ok by exact E. cbv beta iota.
      erewrite bind_ok by reflexivity. reflexivity. }
    cbn [run_loop]. erewrite bind_ok by exact C. reflexivity. }
  intros st'. subst st'. rewrite R. cbn [fst snd].
  split; [reflexivity |]. split; [exact Hr |]. split; [exact Hw |].
  split; [exact Hd |]. cbn [log add_log]. apply last_snoc.
Qed.

(** X10.  A front page that arrives but lists no story ends the run in the same
    way. *)
Theorem empty_front_page_ends_run (c : YCrawler) (cycles : nat)
    (st : State World) (body : bytes) (ct : str) (w : World) (t : Table)
    (Hsem : (0 < sem st)%Z)
    (Hget : http_get ClientSession (site c) None (world st)
            = (Response body ct 200, w))
    (Hbody : body <> [])
    (Htable : table (BeautifulSoup body) = Some t)
    (Hnone : athing t = []) :
  let st' := snd (run_loop c (S cycles) st) in
  fst (run_loop c (S cycles) st) = Ok Returned
  /\ requests st' = requests st ++ [(site c, Response body ct 200)]
  /\ written st' = written st
  /\ dispatched st' = dispatched st
  /\ last (log st') = Some (ERROR, MsgNoNews).
Proof.
  pose proof (parse_main_page_fetched c ClientSession st body ct w
                Hsem Hget Hbody) as E.
  rewrite Htable, Hnone in E.
  destruct (after_get_books (site c) (Response body ct 200) w st)
    as (Hr & Hw & _).
  assert (R : run_loop c (S cycles) st
              = (Ok Returned,
                 add_log (ERROR, MsgNoNews)
                   (after_get (site c) (Response body ct 200) w st))).
  { assert (C : cycle c st
                = (Ok true,
                   add_log (ERROR, MsgNoNews)
                     (after_get (site c) (Response body ct 200) w st))).
    { unfold cycle. erewrite bind_ok by exact E. cbv beta iota.
      erewrite bind_ok by reflexivity. reflexivity. }
    cbn [run_loop]. erewrite bind_ok by exact C. reflexivity. }
  intros st'. subst st'. rewrite R. cbn [fst snd].
  split; [reflexivity |]. split; [exact Hr |]. split; [exact Hw |].
  split; [reflexivity |]. cbn [log add_log]. apply last_snoc.
Qed.

(** X11.  A front page with status 200 whose document has no table is not
    treated as a failure: [bs.table.find_all] raises [AttributeError], which
    nothing in [run] catches. *)
Theorem front_page_without_table_raises (c : YCrawler) (cycles : nat)
    (st : State World) (body : bytes) (ct : str) (w : World)
    (Hsem : (0 < sem st)%Z)
    (Hget : http_get ClientSession (site c) None (world st)
            = (Response body ct 200, w))
    (Hbody : body <> [])
    (Htable : table (BeautifulSoup body) = None) :
  fst (run_loop c (S cycles) st) = Raise AttributeError
  /\ written (snd (run_loop c (S cycles) st)) = written st
  /\ dispatched (snd (run_loop c (S cycles) st)) = dispatched st.
Proof.
  pose proof (parse_main_page_fetched c ClientSession st body ct w
                Hsem Hget Hbody) as E.
  rewrite Htable in E.
  destruct (after_get_books (site c) (Response body ct 200) w st)
    as (_ & Hw & _).
  assert (R : run_loop c (S cycles) st
              = (Raise AttributeError,
                 after_get (site c) (Response body ct 200) w st)).
  { assert (C : cycle c st
                = (Raise AttributeError,
                   after_get (site c) (Response body ct 200) w st)).
    { unfold cycle. erewrite bind_raise by exact E. reflexivity. }
    cbn [run_loop]. erewrite bind_raise by exact C. reflexivity. }
  rewrite R. cbn [fst snd]. split; [reflexivity |]. split; [exact Hw |].
  reflexivity.
Qed.

(** X12.  In single-pass mode the loop of [run] makes one turn, whatever the
    number of turns allowed: it never asks for a further cycle. *)
Theorem single_pass_runs_one_cycle (c : YCrawler) (cycles : nat)
    (st : State World) (Honce : run_once c = true) :
  run_loop c (S cycles) st = run_loop c 1 st
  /\ fst (run_loop c (S cycles) st) <> Ok Running.
Proof.
  cbn [run_loop]. unfold mbind, M_bind.
  destruct (cycle c st) as [[[] | e |] st1]; rewrite ?Honce;
    split; try reflexivity; discriminate.
Qed.

Lemma for_news_catches_keyboard_interrupt (c : YCrawler) (session : Session)
    (items : list Item) (st : State World) :
  fst (for_news c session items st) <> Raise KeyboardInterrupt.
Proof.
  revert st. induction items as [|it items IH]; intros st; cbn [for_news].
  - discriminate.
  - destruct (news_step c session it st) as [[[] | e |] st1].
    + apply IH.
    + destruct e; discriminate.
    + discriminate.
Qed.

(** X13.  A [KeyboardInterrupt] raised while a story is processed leaves the
    loop over the news only: the later entries of the cycle are skipped, no
    loop over the news ever lets the interrupt through, and the cycle goes
    on to its end ('End parsing news cycle') without asking [run] to
    stop. *)
Theorem keyboard_interrupt_only_leaves_the_for_loop (c : YCrawler)
    (session : Session) (pre post : list Item) (it : Item)
    (st st1 st2 : State World)
    (Hpre : for_news c session pre st = (Ok Exhausted, st1))
    (Hki : news_step c session it st1 = (Raise KeyboardInterrupt, st2)) :
  for_news c session (pre ++ it :: post) st = (Ok Broke, st2)
  /\ (forall items s,
        fst (for_news c session items s) <> Raise KeyboardInterrupt)
  /\ (for_news c session (pre ++ it :: post);;
      logging INFO MsgEndCycle;;
      mret false) st
     = (Ok false, add_log (INFO, MsgEndCycle) st2).
Proof.
  assert (E : for_news c session (pre ++ it :: post) st = (Ok Broke, st2)).
  { rewrite for_news_app, Hpre. cbn [for_news]. rewrite Hki. reflexivity. }
  split; [exact E |].
  split; [intros items s; apply for_news_catches_keyboard_interrupt |].
  erewrite bind_ok by exact E. erewrite bind_ok by reflexivity. reflexivity.
Qed.

End PollingFacts.

Lemma front_page_failure_ends_run_witness :
  let st := Script.start [Response Demo.not_found (u "text/html") 503] in
  let st' := snd (run_loop Script.poller 4 st) in
  fst (run_loop Script.poller 4 st) = Ok Returned
  /\ requests st'
     = requests st ++ [(SITE, Response Demo.not_found (u "text/html") 503)]
  /\ written st' = written st
  /\ dispatched st' = dispatched st
  /\ last (log st') = Some (ERROR, MsgNoNews).
Proof.
  intros st.
  apply (front_page_failure_ends_run Script.poller 3 st
           (Response Demo.not_found (u "text/html") 503) []).
  - vm_compute. reflexivity.
  - reflexivity.
  - vm_compute. reflexivity.
  - intros e. discriminate.
Defined.

Lemma empty_front_page_ends_run_witness :
  let st := Script.start [Script.ok Demo.story123] in
  let st' := snd (run_loop Script.poller 4 st) in
  fst (run_loop Script.poller 4 st) = Ok Returned
  /\ requests st' = requests st ++ [(SITE, Script.ok Demo.story123)]
  /\ written st' = written st
  /\ dispatched st' = dispatched st
  /\ last (log st') = Some (ERROR, MsgNoNews).
Proof.
  intros st.
  apply (empty_front_page_ends_run Script.poller 3 st Demo.story123
           (u "text/html") []
           {| comment_tree := Some [Demo.comment_c1]; athing := [] |}).
  - vm_compute. reflexivity.
  - reflexivity.
  - vm_compute. discriminate.
  - vm_compute. reflexivity.
  - reflexivity.
Defined.

Lemma front_page_without_table_raises_witness :
  let st := Script.start [Script.ok Demo.not_found] in
  fst (run_loop Script.poller 4 st) = Raise AttributeError
  /\ written (snd (run_loop Script.poller 4 st)) = written st
  /\ dispatched (snd (run_loop Script.poller 4 st)) = dispatched st.
Proof.
  intros st.
  apply (front_page_without_table_raises Script.poller 3 st Demo.not_found
           (u "text/html") []).
  - vm_compute. reflexivity.
  - reflexivity.
  - vm_compute. discriminate.
  - vm_compute. reflexivity.
Defined.

Lemma single_pass_runs_one_cycle_witness :
  run_loop Demo.crawler 5 Demo.start = run_loop Demo.crawler 1 Demo.start
  /\ fst (run_loop Demo.crawler 5 Demo.start) <> Ok Running.
Proof.
  apply (single_pass_runs_one_cycle Demo.crawler 4 Demo.start).
  reflexivity.
Defined.

Lemma keyboard_interrupt_only_leaves_the_for_loop_witness :
  let st := Script.start [Failure KeyboardInterrupt] in
  let st2 := snd (news_step Script.poller ClientSession Demo.item123 st) in
  for_news Script.poller ClientSession ([] ++ Demo.item123 :: [Demo.item404])
    st
  = (Ok Broke, st2)
  /\ (forall items s,
        fst (for_news Script.poller ClientSession items s)
        <> Raise KeyboardInterrupt)
  /\ (for_news Script.poller ClientSession
        ([] ++ Demo.item123 :: [Demo.item404]);;
      logging INFO MsgEndCycle;;
      mret false) st
     = (Ok false, add_log (INFO, MsgEndCycle) st2).
Proof.
  intros st st2.
  apply (keyboard_interrupt_only_leaves_the_for_loop Script.poller
           ClientSession [] [Demo.item404] Demo.item123 st st st2).
  - reflexivity.
  - vm_compute. reflexivity.
Defined.

(** ** The dictionary along a run *)

Section DictionaryFacts.

Context `{env : Env World}.

Lemma preserves_bind (P : State World -> Prop) {A B} (m : M World A)
    (f : A -> M World B) :
  preserves P m -> (forall a, preserves P (f a)) -> preserves P (m ≫= f).
Proof.
  intros Hm Hf st HP. specialize (Hm st HP).
  unfold mbind, M_bind. destruct (m st) as [[a | e |] st1]; cbn [snd] in *.
  - apply Hf. exact Hm.
  - exact Hm.
  - exact Hm.
Qed.

Section Invariant.

Variable P : State World -> Prop.

Hypothesis P_untouched :
  forall st st' : State World, untouched st st' -> P st -> P st'.
Hypothesis P_step :
  forall c session it, preserves P (news_step c session it).

Lemma keeps_preserves {A} (m : M World A) : keeps m -> preserves P m.
Proof.
  intros Hm st HP. destruct (Hm st) as [U _]. exact (P_untouched _ _ U HP).
Qed.

Lemma preserves_for_news (c : YCrawler) (session : Session)
    (items : list Item) : preserves P (for_news c session items).
Proof.
  induction items as [|it items IH]; intros st HP; cbn [for_news].
  - exact HP.
  - pose proof (P_step c session it st HP) as H1.
    destruct (news_step c session it st) as [[[] | e |] st1]; cbn [snd] in *.
    + apply IH. exact H1.
    + destruct e; exact H1.
    + exact H1.
Qed.

Lemma preserves_cycle (c : YCrawler) : preserves P (cycle c).
Proof.
  unfold cycle. apply preserves_bind.
  - apply keeps_preserves, keeps_parse_main_page.
  - intros [[| it items] |].
    + apply keeps_preserves, keeps_bind;
        [apply keeps_logging | intros _; apply keeps_ret].
    + apply preserves_bind; [apply preserves_for_news | intros _].
      apply keeps_preserves, keeps_bind;
        [apply keeps_logging | intros _; apply keeps_ret].
    + apply keeps_preserves, keeps_bind;
        [apply keeps_logging | intros _; apply keeps_ret].
Qed.

Lemma preserves_run_loop (c : YCrawler) (cycles : nat) :
  preserves P (run_loop c cycles).
Proof.
  induction cycles as [|n IH]; cbn [run_loop].
  - apply keeps_preserves, keeps_ret.
  - apply preserves_bind; [apply preserves_cycle |]. intros stop.
    destruct stop; [apply keeps_preserves, keeps_ret |].
    destruct (run_once c); [apply keeps_preserves, keeps_ret |].
    apply preserves_bind; [apply keeps_preserves, keeps_logging | intros _].
    apply preserves_bind; [apply keeps_preserves, keeps_logging | intros _].
    exact IH.
Qed.

End Invariant.

(** X14.  An entry of [parsed_news] is never removed nor overwritten: whatever
    the later cycles do, the pair recorded under an id stays the one that
    was stored first. *)
Theorem parsed_news_entry_is_kept (c : YCrawler) (cycles : nat)
    (st : State World) (id : str) (tpl : str * str)
    (Hin : parsed_news st !! id = Some tpl) :
  parsed_news (snd (run_loop c cycles st)) !! id = Some tpl.
Proof.
  apply (preserves_run_loop
           (fun s : State World => parsed_news s !! id = Some tpl));
    [| | exact Hin].
  - intros s s' (_ & Hp & _) H. rewrite Hp. exact H.
  - intros c0 session it s H.
    pose proof (news_step_books c0 session it s) as [_ B].
    destruct (item_id it) as [j |].
    + destruct B as [_ B]. destruct (parsed_news s !! j) eqn:Hj.
      * destruct B as [_ ->]. exact H.
      * destruct B as [_ B].
        destruct (parse_item c0 it session
                    (add_dispatched j (add_examined j s)))
          as [[[t |] | e |] s1]; rewrite B; try exact H.
        rewrite lookup_insert_ne; [exact H |]. congruence.
    + destruct B as [-> _]. exact H.
Qed.

(** X15.  Only a story that was handed to [parse_item] gets recorded: every key
    of [parsed_news] after any number of cycles was a key before or is among
    the ids dispatched since. *)
Theorem parsed_news_only_dispatched (c : YCrawler) (cycles : nat)
    (st : State World) :
  exists l,
    dispatched (snd (run_loop c cycles st)) = dispatched st ++ l
    /\ forall id, id ∈ dom (parsed_news (snd (run_loop c cycles st))) ->
         id ∈ dom (parsed_news st) \/ id ∈ l.
Proof.
  apply (preserves_run_loop
           (fun s : State World =>
              exists l, dispatched s = dispatched st ++ l
                /\ forall id, id ∈ dom (parsed_news s) ->
                     id ∈ dom (parsed_news st) \/ id ∈ l)).
  - intros s s' (_ & Hp & Hd & _) (l & El & H).
    exists l. rewrite Hp, Hd. auto.
  - intros c0 session it s (l & El & H).
    pose proof (news_step_books c0 session it s) as [_ B].
    destruct (item_id it) as [j |].
    + destruct B as [_ B]. destruct (parsed_news s !! j) eqn:Hj.
      * destruct B as [Hd Hp]. exists l. rewrite Hd, Hp. auto.
      * destruct B as [Hd B]. exists (l ++ [j]).
        split; [rewrite Hd, El, app_assoc; reflexivity |].
        intros id Hid.
        assert (Hcase : id = j \/ id ∈ dom (parsed_news s)).
        { destruct (parse_item c0 it session
                      (add_dispatched j (add_examined j s)))
            as [[[t |] | e |] s1]; rewrite B in Hid; auto.
          rewrite dom_insert_L in Hid. apply elem_of_union in Hid.
          destruct Hid as [Hid | Hid]; [| auto].
          apply elem_of_singleton in Hid. auto. }
        destruct Hcase as [-> | Hs].
        -- right. apply elem_of_app. right. apply list_elem_of_singleton.
           reflexivity.
        -- destruct (H id Hs) as [H1 | H1]; [auto |].
           right. apply elem_of_app. auto.
    + destruct B as [-> _]. exists l. auto.
  - exists []. rewrite app_nil_r. auto.
Qed.

(** X16.  A cycle in which every listed story is already recorded is idle: the
    loop over the news runs to its end without any GET, without writing a
    file, without calling [parse_item], and leaves the dictionary as it
    is. *)
Theorem all_seen_cycle_is_idle (c : YCrawler) (session : Session)
    (items : list Item) (st : State World)
    (Hseen : Forall (fun it => exists id, item_id it = Some id
                                 /\ id ∈ dom (parsed_news st)) items) :
  let st' := snd (for_news c session items st) in
  fst (for_news c session items st) = Ok Exhausted
  /\ requests st' = requests st
  /\ written st' = written st
  /\ dispatched st' = dispatched st
  /\ parsed_news st' = parsed_news st
  /\ world st' = world st.
Proof.
  revert st Hseen. induction items as [|it items IH]; intros st Hseen.
  - cbn. repeat split.
  - inversion Hseen as [|? ? (id & Hid & Hdom) Hrest]; subst.
    cbn [for_news]. rewrite (news_step_seen c session it id st Hid Hdom).
    specialize (IH (add_log (DEBUG, MsgAlreadyParsed id) (add_examined id st))
                  Hrest).
    exact IH.
Qed.

(** X17.  Stories are handed to [parse_item] in the order of the listing: the
    ids dispatched by the loop form a subsequence of the ids of its
    entries. *)
Theorem dispatched_in_listing_order (c : YCrawler) (session : Session)
    (items : list Item) (st : State World) :
  exists l,
    dispatched (snd (for_news c session items st)) = dispatched st ++ l
    /\ l `sublist_of` omap item_id items.
Proof.
  revert st. induction items as [|it items IH]; intros st; cbn [for_news].
  - exists []. rewrite app_nil_r. split; [reflexivity | apply sublist_nil_l].
  - pose proof (news_step_books c session it st) as [_ B].
    cbn [omap list_omap]. fold (omap item_id items).
    destruct (item_id it) as [j |].
    + destruct B as [_ B].
      assert (Hstep : exists l0,
                 dispatched (snd (news_step c session it st))
                 = dispatched st ++ l0
                 /\ l0 `sublist_of` [j]).
      { destruct (parsed_news st !! j).
        - exists []. rewrite app_nil_r. split; [apply B | apply sublist_nil_l].
        - exists [j]. split; [apply B | reflexivity]. }
      destruct Hstep as (l0 & Hd0 & Hl0).
      destruct (news_step c session it st) as [[[] | e |] st1];
        cbn [fst snd] in *.
      * destruct (IH st1) as (l & Hd & Hl). exists (l0 ++ l).
        split; [rewrite Hd, Hd0, app_assoc; reflexivity |].
        change (j :: omap item_id items) with ([j] ++ omap item_id items).
        apply sublist_app; assumption.
      * exists l0. split; [destruct e; exact Hd0 |].
        change (j :: omap item_id items) with ([j] ++ omap item_id items).
        apply sublist_inserts_r. exact Hl0.
      * exists l0. split; [exact Hd0 |].
        change (j :: omap item_id items) with ([j] ++ omap item_id items).
        apply sublist_inserts_r. exact Hl0.
    + destruct B as [Hst Hr].
      rewrite (surjective_pairing (news_step c session it st)), Hr, Hst.
      cbn [snd]. exists []. rewrite app_nil_r.
      split; [reflexivity | apply sublist_nil_l].
Qed.

End DictionaryFacts.

Lemma parsed_news_entry_is_kept_witness :
  parsed_news (snd (run_loop Demo.crawler 2 Demo.seen123)) !! u "123"
  = Some (u "Hello World", Demo.item_url "123").
Proof.
  apply (parsed_news_entry_is_kept Demo.crawler 2 Demo.seen123).
  vm_compute. reflexivity.
Defined.

Lemma all_seen_cycle_is_idle_witness :
  let st' := snd (for_news Demo.crawler ClientSession
                    [Demo.item123; Demo.item123] Demo.seen123) in
  fst (for_news Demo.crawler ClientSession [Demo.item123; Demo.item123]
         Demo.seen123) = Ok Exhausted
  /\ requests st' = requests Demo.seen123
  /\ written st' = written Demo.seen123
  /\ dispatched st' = dispatched Demo.seen123
  /\ parsed_news st' = parsed_news Demo.seen123
  /\ world st' = world Demo.seen123.
Proof.
  apply (all_seen_cycle_is_idle Demo.crawler ClientSession
           [Demo.item123; Demo.item123] Demo.seen123).
  assert (H : exists id, item_id Demo.item123 = Some id
                         /\ id ∈ dom (parsed_news Demo.seen123)).
  { exists (u "123"). split; [reflexivity |].
    apply elem_of_dom. eexists. vm_compute. reflexivity. }
  repeat (apply Forall_cons_2; [exact H |]). apply Forall_nil_2.
Defined.

(** ** Processing one story *)

Section StoryFacts.

Context `{env : Env World}.

Lemma parse_item_empty (c : YCrawler) (it : Item) (session : Session)
    (st : State World) (id : str) (o : outcome) (w : World) :
  item_id it = Some id ->
  (0 < sem st)%Z ->
  http_get session (site c ++ u "/item?id=" ++ id) None (world st) = (o, w) ->
  empty_payload o = true ->
  exists st1 : State World,
    parse_item c it session st = (Ok None, st1)
    /\ written st1 = written st
    /\ requests st1 = requests st ++ [(site c ++ u "/item?id=" ++ id, o)].
Proof.
  intros Hid Hsem Hget Hempty.
  destruct (after_get_books (site c ++ u "/item?id=" ++ id) o w
              (add_log (INFO, MsgParsingItem (site c ++ u "/item?id=" ++ id))
                 st)) as (Hr & Hw & _).
  unfold parse_item. rewrite Hid.
  erewrite bind_ok by reflexivity.
  destruct o as [body ct status | e].
  - destruct body as [|b0 body]; [| discriminate Hempty].
    erewrite bind_ok
      by (erewrite read_url_eq by (first [exact Hsem | exact Hget]);
          reflexivity).
    cbv beta iota. cbn [truthy negb].
    erewrite bind_ok by reflexivity.
    eexists. split; [reflexivity |]. split; [exact Hw | exact Hr].
  - destruct e; try discriminate Hempty.
    erewrite bind_ok
      by (erewrite read_url_eq by (first [exact Hsem | exact Hget]);
          reflexivity).
    cbv beta iota. cbn [truthy negb].
    erewrite bind_ok by reflexivity.
    eexists. split; [reflexivity |]. split; [exact Hw | exact Hr].
Qed.

(** X18.  A story whose page comes back empty or times out is not recorded: the
    turn ends normally after the one GET, nothing is written, the id is
    still absent from [parsed_news], and the next turn on the same entry
    calls [parse_item] again. *)
Theorem failed_story_is_retried (c : YCrawler) (session : Session)
    (it : Item) (id : str) (st : State World) (o : outcome) (w : World)
    (Hid : item_id it = Some id)
    (Habs : parsed_news st !! id = None)
    (Hsem : (0 < sem st)%Z)
    (Hget : http_get session (site c ++ u "/item?id=" ++ id) None (world st)
            = (o, w))
    (Hempty : empty_payload o = true) :
  let st' := snd (news_step c session it st) in
  fst (news_step c session it st) = Ok tt
  /\ parsed_news st' = parsed_news st
  /\ written st' = written st
  /\ requests st' = requests st ++ [(site c ++ u "/item?id=" ++ id, o)]
  /\ dispatched st' = dispatched st ++ [id]
  /\ forall session',
       dispatched (snd (news_step c session' it st')) = dispatched st' ++ [id].
Proof.
  destruct (parse_item_empty c it session
              (add_dispatched id (add_examined id st)) id o w
              Hid Hsem Hget Hempty) as (st1 & E & Hw & Hr).
  destruct (keeps_parse_item c it session
              (add_dispatched id (add_examined id st)))
    as [(_ & Hp & Hd & _) _].
  rewrite E in Hp, Hd. cbn [snd] in Hp, Hd.
  intros st'. subst st'.
  rewrite (news_step_absent c session it id st Hid Habs), E. cbn [fst snd].
  split; [reflexivity |]. split; [exact Hp |]. split; [exact Hw |].
  split; [exact Hr |]. split; [exact Hd |].
  intros session'.
  pose proof (news_step_books c session' it st1) as [_ B].
  rewrite Hid in B. destruct B as [_ B].
  assert (Habs1 : parsed_news st1 !! id = None) by (rewrite Hp; exact Habs).
  rewrite Habs1 in B. apply B.
Qed.

(** X19.  An entry without a usable title anchor stops [parse_item] after the
    page was fetched and before anything is written: no [titleline] gives
    [IndexError], a [titleline] without anchor [AttributeError], and an
    anchor without [href] [KeyError], although the [href] is not needed for
    the file. *)
Theorem malformed_entry_is_not_archived (c : YCrawler) (it : Item)
    (session : Session) (st : State World) (id : str) (body : bytes)
    (ct : str) (status : Z) (w : World) (e : exn)
    (Hid : item_id it = Some id)
    (Hsem : (0 < sem st)%Z)
    (Hget : http_get session (site c ++ u "/item?id=" ++ id) None (world st)
            = (Response body ct status, w))
    (Hbody : body <> [])
    (Hbad : titleline_error it = Some e) :
  fst (parse_item c it session st) = Raise e
  /\ written (snd (parse_item c it session st)) = written st
  /\ requests (snd (parse_item c it session st))
     = requests st
       ++ [(site c ++ u "/item?id=" ++ id, Response body ct status)].
Proof.
  destruct (after_get_books (site c ++ u "/item?id=" ++ id)
              (Response body ct status) w
              (add_log (INFO, MsgParsingItem (site c ++ u "/item?id=" ++ id))
                 st)) as (Hr & Hw & _).
  assert (E : parse_item c it session st
              = (Raise e,
                 after_get (site c ++ u "/item?id=" ++ id)
                   (Response body ct status) w
                   (add_log (INFO, MsgParsingItem
                                     (site c ++ u "/item?id=" ++ id)) st))).
  { unfold parse_item. rewrite Hid.
    erewrite bind_ok by reflexivity.
    erewrite bind_ok
      by (erewrite read_url_eq by (first [exact Hsem | exact Hget]);
          reflexivity).
    cbv beta iota. destruct body as [|b0 body]; [congruence |].
    cbn [truthy negb]. unfold titleline_error in Hbad.
    destruct (titlelines it) as [| [a |] tl].
    - injection Hbad as <-. reflexivity.
    - destruct (a_href a); [discriminate |].
      injection Hbad as <-. reflexivity.
    - injection Hbad as <-. reflexivity. }
  rewrite E. cbn [fst snd]. split; [reflexivity |].
  split; [exact Hw | exact Hr].
Qed.

Lemma hrefs_missing (anchors : list Anchor) :
  (exists a, a ∈ anchors /\ a_href a = None) -> hrefs anchors = None.
Proof.
  induction anchors as [|x anchors IH]; intros (a & Hin & Ha).
  - apply elem_of_nil in Hin. contradiction.
  - cbn [hrefs]. apply elem_of_cons in Hin. destruct Hin as [-> | Hin].
    + rewrite Ha. reflexivity.
    + rewrite IH by (exists a; auto). destruct (a_href x); reflexivity.
Qed.

(** X21.  The addresses of a comment are all read before the first of them is
    fetched: when any anchor of the comment has no [href], the comment
    raises [KeyError] without a single GET, also for the anchors before it,
    and the comments after it are not processed. *)
Theorem comment_with_bare_anchor_fetches_nothing (session : Session)
    (dir : Path) (comment : Comment) (rest : list Comment) (cid : str)
    (anchors : list Anchor) (st : State World)
    (Hcid : comment_id comment = Some cid)
    (Htext : commtext comment = Some anchors)
    (Hbare : exists a, a ∈ anchors /\ a_href a = None) :
  for_comments session dir (comment :: rest) st = (Raise KeyError, st).
Proof.
  cbn [for_comments]. rewrite Hcid, Htext, (hrefs_missing anchors Hbare).
  reflexivity.
Qed.

End StoryFacts.

Lemma failed_story_is_retried_witness :
  let st := Script.start [Response [] (u "text/html") 200] in
  let st' := snd (news_step Script.poller ClientSession Demo.item123 st) in
  fst (news_step Script.poller ClientSession Demo.item123 st) = Ok tt
  /\ parsed_news st' = parsed_news st
  /\ written st' = written st
  /\ requests st'
     = requests st
       ++ [(site Script.poller ++ u "/item?id=" ++ u "123",
            Response [] (u "text/html") 200)]
  /\ dispatched st' = dispatched st ++ [u "123"]
  /\ forall session',
       dispatched (snd (news_step Script.poller session' Demo.item123 st'))
       = dispatched st' ++ [u "123"].
Proof.
  intros st.
  apply (failed_story_is_retried Script.poller ClientSession Demo.item123
           (u "123") st (Response [] (u "text/html") 200) []).
  - reflexivity.
  - vm_compute. reflexivity.
  - vm_compute. reflexivity.
  - reflexivity.
  - reflexivity.
Defined.

Lemma malformed_entry_is_not_archived_witness :
  let st := Script.start [Script.ok Demo.story123] in
  fst (parse_item Script.poller Script.item_no_href ClientSession st)
  = Raise KeyError
  /\ written (snd (parse_item Script.poller Script.item_no_href
                     ClientSession st)) = written st
  /\ requests (snd (parse_item Script.poller Script.item_no_href
                      ClientSession st))
     = requests st
       ++ [(site Script.poller ++ u "/item?id=" ++ u "7",
            Response Demo.story123 (u "text/html") 200)].
Proof.
  intros st.
  apply (malformed_entry_is_not_archived Script.poller Script.item_no_href
           ClientSession st (u "7") Demo.story123 (u "text/html") 200 []
           KeyError).
  - reflexivity.
  - vm_compute. reflexivity.
  - reflexivity.
  - vm_compute. discriminate.
  - reflexivity.
Defined.

Lemma comment_with_bare_anchor_fetches_nothing_witness :
  for_comments ClientSession Demo.comments_dir
    (Script.comment_no_href :: [Demo.comment_c1])
    (Script.start [Script.ok Demo.page_b])
  = (Raise KeyError, Script.start [Script.ok Demo.page_b]).
Proof.
  apply (comment_with_bare_anchor_fetches_nothing ClientSession
           Demo.comments_dir Script.comment_no_href [Demo.comment_c1]
           (u "c2") [Demo.link "http://x/b";
                     {| a_text := u "bare"; a_href := None |}]).
  - reflexivity.
  - reflexivity.
  - exists {| a_text := u "bare"; a_href := None |}.
    split; [| reflexivity]. apply elem_of_cons. right.
    apply elem_of_cons. left. reflexivity.
Defined.

(** ** The program as started by [main] *)

Section MainFacts.

Context `{env : Env World}.


End MainFacts.

